(** * The data-shaping core of the research dashboard ([streamlit_app.py])

    A shallow embedding of the loader, the row projector, the filter
    pipeline, the profile sort and the evidence timeline of
    [streamlit_app.py], followed by the properties proved about them.

    Conventions of the embedding.
    - A profile or evidence dictionary is a record whose fields are
      [option]s: [None] is an absent key, so that [d.get(k, v)] is
      [default v (k d)].  Values have the types of the data model
      (strings, a count, lists).
    - Text is a Rocq [string]: the bytes of the text in UTF-8.  The case
      folding, the digit class and the dot of the embedding are those of
      Python on ASCII text; a statement about the outcome of a search or
      about the strings that a format reads asks that text to be ASCII
      ([ascii_text]).
    - Code that can raise returns a [result].
    - Library calls are embedded by what they compute: a pandas frame by its
      column labels and rows, [str.contains] by a search with a fragment of
      the regular expressions of [re], [list.sort] by a stable insertion
      sort, [datetime.strptime] by the expression of its format. *)

From Stdlib Require Import List String Ascii Bool NArith Arith Lia.
From Stdlib Require Import Permutation Sorted RelationClasses.
Import ListNotations.

Local Open Scope string_scope.
Local Open Scope list_scope.

Set Implicit Arguments.

(** ** Python values and control *)

(** [d.get(key, default)] on an optional field. *)
Definition default {A} (d : A) (o : option A) : A :=
  match o with Some a => a | None => d end.

Inductive exn : Type :=
| KeyError (key : string)
    (** [frame[key]] on a frame that has no such column *)
| ReError (msg : string)
    (** [re.error]: the pattern is no regular expression *)
| PatternNotCovered (pat : string)
    (** the pattern leaves the fragment of [re] that is embedded below; in
        Python it is compiled as a regular expression or raises [re.error] *)
| TypeError (msg : string)
    (** an operation that the [dtype] of a column does not support *).

Inductive result (A : Type) : Type :=
| Ok (a : A)
| Raise (e : exn).
Arguments Ok {A} a.
Arguments Raise {A} e.

Definition bind {A B} (m : result A) (k : A -> result B) : result B :=
  match m with Ok a => k a | Raise e => Raise e end.

Notation "x <- m ;; k" := (bind m (fun x => k))
  (at level 61, m at next level, right associativity).

(** ** Data model *)

Record Evidence : Type := {
  date : option string;
  quote : option string;
  tweet_url : option string
}.

(** [evidence_count] is a cached count; the slider that bounds it from below
    starts at 0, and it is taken in [N]. *)
Record Profile : Type := {
  username : option string;
  full_name : option string;
  roles : option (list string);
  company : option string;
  company_size : option string;
  profile_url : option string;
  evidence_count : option N;
  first_evidence_date : option string;
  latest_evidence_date : option string;
  evidence : option (list Evidence)
}.

Record Document : Type := {
  metadata : option (list (string * string));
  profiles : option (list Profile)
}.

(** A row of the frame built by [extract_dataframe]. *)
Record Row : Type := {
  r_username : string;
  r_full_name : string;
  r_roles : string;
  r_company : string;
  r_company_size : string;
  r_evidence_count : N;
  r_first_date : string;
  r_latest_date : string
}.

(** ** pandas frames *)

(** A frame keeps its column labels apart from its rows: filtering a frame
    down to no row keeps the labels, whereas [pd.DataFrame([])] has none. *)
Record DataFrame : Type := {
  columns : list string;
  rows : list Row
}.

Definition row_keys : list string :=
  ["username"; "full_name"; "roles"; "company"; "company_size";
   "evidence_count"; "first_date"; "latest_date"].

(** [pd.DataFrame(rows)] for a list of dictionaries that all have
    [row_keys] as keys. *)
Definition pd_DataFrame (rs : list Row) : DataFrame :=
  {| columns := match rs with [] => [] | _ :: _ => row_keys end;
     rows := rs |}.

(** [frame[key]]: the column as a sequence, [KeyError] without the label. *)
Definition getitem {A} (df : DataFrame) (key : string) (field : Row -> A)
  : result (list A) :=
  if existsb (String.eqb key) (columns df)
  then Ok (map field (rows df))
  else Raise (KeyError key).

(** [frame[mask]]: the rows whose mask entry is [True]. *)
Definition select (df : DataFrame) (mask : list bool) : DataFrame :=
  {| columns := columns df;
     rows := map fst (filter snd (combine (rows df) mask)) |}.

(** ** Row projector: [extract_dataframe] *)

(** [sep.join(parts)] *)
Definition join (sep : string) (parts : list string) : string :=
  String.concat sep parts.

Definition make_row (profile : Profile) : Row :=
  {| r_username := default "" (username profile);
     r_full_name := default "" (full_name profile);
     r_roles := join ", " (default [] (roles profile));
     r_company := default "" (company profile);
     r_company_size := default "" (company_size profile);
     r_evidence_count := default 0%N (evidence_count profile);
     r_first_date := default "" (first_evidence_date profile);
     r_latest_date := default "" (latest_evidence_date profile) |}.

(** The [for profile in profiles: ... rows.append(row)] loop, with the list
    being built as accumulator. *)
Fixpoint extract_loop (acc : list Row) (ps : list Profile) : list Row :=
  match ps with
  | [] => acc
  | profile :: ps' => extract_loop (acc ++ [make_row profile]) ps'
  end.

Definition get_profiles (data : Document) : list Profile :=
  default [] (profiles data).

Definition extract_dataframe (data : Document) : DataFrame :=
  pd_DataFrame (extract_loop [] (get_profiles data)).

(** ** Text: case folding and the embedded fragment of [re] *)

Definition is_upper (c : ascii) : bool :=
  (("A" <=? c) && (c <=? "Z"))%char.

(** The lower case of a character of ASCII text.  Beyond ASCII, [str.lower]
    and [re.IGNORECASE] fold by the tables of Unicode, which are not
    embedded: the bytes of such a character are left as they are. *)
Definition lower_char (c : ascii) : ascii :=
  if is_upper c then ascii_of_N (N_of_ascii c + 32) else c.

(** [s.lower()] *)
Fixpoint lower (s : string) : string :=
  match s with
  | EmptyString => EmptyString
  | String c s' => String (lower_char c) (lower s')
  end.

Fixpoint mem_char (c : ascii) (s : string) : bool :=
  match s with
  | EmptyString => false
  | String c' s' => Ascii.eqb c c' || mem_char c s'
  end.

(** The characters that the parser of [re] does not read as themselves. *)
Definition SPECIAL_CHARS : string := ".\[{()*+?^$|".

(** The embedded fragment of the pattern language: a sequence of literal
    characters and of dots. *)
Inductive atom : Type :=
| LITERAL (c : ascii)
| ANY.

Definition pattern : Type := list atom.

Fixpoint parse (pat : string) : option pattern :=
  match pat with
  | EmptyString => Some []
  | String c rest =>
      if Ascii.eqb c "." then option_map (cons ANY) (parse rest)
      else if mem_char c SPECIAL_CHARS then None
      else option_map (cons (LITERAL c)) (parse rest)
  end.

(** A pattern that starts with a repetition operator. *)
Definition leading_repeat (pat : string) : bool :=
  match pat with
  | String c _ => mem_char c "*+?"
  | EmptyString => false
  end.

(** [re.compile(pat, flags=re.IGNORECASE)].  Within the fragment the pattern
    compiles; a repetition operator with nothing in front of it is an error
    of the pattern; the other patterns are left to Python. *)
Definition re_compile (pat : string) : result pattern :=
  match parse pat with
  | Some p => Ok p
  | None =>
      if leading_repeat pat then Raise (ReError "nothing to repeat")
      else Raise (PatternNotCovered pat)
  end.

Definition newline : ascii := "010"%char.

(** One pattern atom against one character, ignoring case; the dot takes
    every character but the newline.  A character is one byte, as in ASCII
    text. *)
Definition atom_matches (a : atom) (c : ascii) : bool :=
  match a with
  | LITERAL p => Ascii.eqb (lower_char p) (lower_char c)
  | ANY => negb (Ascii.eqb c newline)
  end.

(** The pattern matches at the start of [s]. *)
Fixpoint match_here (p : pattern) (s : string) : bool :=
  match p, s with
  | [], _ => true
  | _ :: _, EmptyString => false
  | a :: p', String c s' => atom_matches a c && match_here p' s'
  end.

(** [p.search(s) is not None]: the pattern matches at some offset of [s]. *)
Fixpoint re_search (p : pattern) (s : string) : bool :=
  match_here p s ||
  match s with
  | EmptyString => false
  | String _ s' => re_search p s'
  end.

(** [series.str.contains(pat, case=False, na=False)]: [regex] keeps its
    default [True], so [pat] is compiled once as a regular expression and
    searched in every element. *)
Definition str_contains (series : list string) (pat : string)
  : result (list bool) :=
  p <- re_compile pat ;;
  Ok (map (re_search p) series).

(** Element-wise [|] of two boolean masks. *)
Definition mask_or (m1 m2 : list bool) : list bool :=
  map (fun ab => orb (fst ab) (snd ab)) (combine m1 m2).

(** ** Filter pipeline: lines 117-129 of [main] *)

Record Query : Type := {
  search_query : string;
  min_evidence : N;
  selected_size : string
}.

(** Truth value of a string: [if s:]. *)
Definition truthy (s : string) : bool :=
  match s with EmptyString => false | String _ _ => true end.

Definition search_filter (q : Query) (filtered_df : DataFrame)
  : result DataFrame :=
  if truthy (search_query q) then
    u <- getitem filtered_df "username" r_username ;;
    mu <- str_contains u (search_query q) ;;
    f <- getitem filtered_df "full_name" r_full_name ;;
    mf <- str_contains f (search_query q) ;;
    Ok (select filtered_df (mask_or mu mf))
  else Ok filtered_df.

Definition evidence_filter (q : Query) (filtered_df : DataFrame)
  : result DataFrame :=
  ec <- getitem filtered_df "evidence_count" r_evidence_count ;;
  Ok (select filtered_df (map (fun c => (min_evidence q <=? c)%N) ec)).

Definition size_filter (q : Query) (filtered_df : DataFrame)
  : result DataFrame :=
  if negb (String.eqb (selected_size q) "All") then
    cs <- getitem filtered_df "company_size" r_company_size ;;
    Ok (select filtered_df (map (fun c => String.eqb c (selected_size q)) cs))
  else Ok filtered_df.

Definition apply_filters (df : DataFrame) (q : Query) : result DataFrame :=
  let filtered_df := df in
  filtered_df <- search_filter q filtered_df ;;
  filtered_df <- evidence_filter q filtered_df ;;
  filtered_df <- size_filter q filtered_df ;;
  Ok filtered_df.

(** [x in values] for [x = p.get("username")]: [None] equals no string. *)
Definition contains_value (x : option string) (values : list string) : bool :=
  match x with
  | Some u => existsb (String.eqb u) values
  | None => false
  end.

Definition filter_profiles (ps : list Profile) (filtered_df : DataFrame)
  : result (list Profile) :=
  values <- getitem filtered_df "username" r_username ;;
  Ok (filter (fun p => contains_value (username p) values) ps).

(** From [extract_dataframe] to [filtered_profiles]. *)
Definition main_filter (data : Document) (q : Query)
  : result (DataFrame * list Profile) :=
  let ps := get_profiles data in
  let df := extract_dataframe data in
  filtered_df <- apply_filters df q ;;
  filtered_profiles <- filter_profiles ps filtered_df ;;
  Ok (filtered_df, filtered_profiles).

(** The query of a freshly drawn sidebar. *)
Definition identity_query : Query :=
  {| search_query := ""; min_evidence := 0%N; selected_size := "All" |}.

(** The three filters as steps that can be run in any order. *)
Inductive step : Type := Search | Threshold | Size.

Definition run_step (q : Query) (s : step) : DataFrame -> result DataFrame :=
  match s with
  | Search => search_filter q
  | Threshold => evidence_filter q
  | Size => size_filter q
  end.

Fixpoint run_steps (q : Query) (order : list step) (df : DataFrame)
  : result DataFrame :=
  match order with
  | [] => Ok df
  | s :: rest => df' <- run_step q s df ;; run_steps q rest df'
  end.

(** ** Sort engine: lines 264-272 of [main] *)

(** [list.sort(key=..., reverse=...)].  The sort of Python is stable and
    compares keys with [<] only.  [stable_sort] is the insertion sort with
    that comparison: an element goes in front of the first one that is not
    smaller, so it stays in front of the later elements with an equal key.
    With [reverse=True] the list is reversed, sorted and reversed again, as
    [list.sort] does, which keeps equal keys in their input order. *)
Section ListSort.
Variables (A K : Type) (key : A -> K) (lt : K -> K -> bool).

Fixpoint insert (x : A) (sorted : list A) : list A :=
  match sorted with
  | [] => [x]
  | y :: l => if lt (key y) (key x) then y :: insert x l else x :: y :: l
  end.

Fixpoint stable_sort (l : list A) : list A :=
  match l with
  | [] => []
  | x :: l' => insert x (stable_sort l')
  end.

Definition list_sort (reverse : bool) (l : list A) : list A :=
  if reverse then rev (stable_sort (rev l)) else stable_sort l.

(** No later element is smaller than an earlier one. *)
Definition ascending (l : list A) : Prop :=
  StronglySorted (fun x y => lt (key y) (key x) = false) l.

(** No later element is greater than an earlier one. *)
Definition falling (l : list A) : Prop :=
  StronglySorted (fun x y => lt (key x) (key y) = false) l.

(** Neither key is smaller than the other: the sort cannot tell [x] and [y]
    apart. *)
Definition tied (x y : A) : bool :=
  negb (lt (key x) (key y)) && negb (lt (key y) (key x)).

End ListSort.

Definition key_evidence_count (x : Profile) : N :=
  default 0%N (evidence_count x).

Definition key_username (x : Profile) : string :=
  lower (default "" (username x)).

Definition key_latest (x : Profile) : string :=
  default "" (latest_evidence_date x).

Definition sort_profiles (sort_option : string)
  (filtered_profiles : list Profile) : list Profile :=
  if String.eqb sort_option "Evidence Count (High to Low)" then
    list_sort key_evidence_count N.ltb true filtered_profiles
  else if String.eqb sort_option "Evidence Count (Low to High)" then
    list_sort key_evidence_count N.ltb false filtered_profiles
  else if String.eqb sort_option "Username (A-Z)" then
    list_sort key_username String.ltb false filtered_profiles
  else if String.eqb sort_option "Latest Activity" then
    list_sort key_latest String.ltb true filtered_profiles
  else filtered_profiles.

Definition sort_options : list string :=
  ["Evidence Count (High to Low)"; "Evidence Count (Low to High)";
   "Username (A-Z)"; "Latest Activity"].

(** The sort key of an option as a Python value, to compare keys of
    different options in one statement. *)
Inductive key_value : Type :=
| KInt (n : N)
| KStr (s : string).

Definition sort_key (sort_option : string) (x : Profile) : key_value :=
  if String.eqb sort_option "Evidence Count (High to Low)" then
    KInt (key_evidence_count x)
  else if String.eqb sort_option "Evidence Count (Low to High)" then
    KInt (key_evidence_count x)
  else if String.eqb sort_option "Username (A-Z)" then
    KStr (key_username x)
  else KStr (key_latest x).

Definition key_value_eqb (a b : key_value) : bool :=
  match a, b with
  | KInt n, KInt m => N.eqb n m
  | KStr s, KStr t => String.eqb s t
  | _, _ => false
  end.

(** [a < b] on keys of one type. *)
Definition key_value_ltb (a b : key_value) : bool :=
  match a, b with
  | KInt n, KInt m => N.ltb n m
  | KStr s, KStr t => String.ltb s t
  | _, _ => false
  end.

(** The option sorts from high to low. *)
Definition descending (sort_option : string) : bool :=
  String.eqb sort_option "Evidence Count (High to Low)"
  || String.eqb sort_option "Latest Activity".

(** A profile in which the fields that serve as sort keys hold their
    default when the key is absent. *)
Definition with_key_defaults (x : Profile) : Profile :=
  {| username := Some (default "" (username x));
     full_name := full_name x;
     roles := roles x;
     company := company x;
     company_size := company_size x;
     profile_url := profile_url x;
     evidence_count := Some (default 0%N (evidence_count x));
     first_evidence_date := first_evidence_date x;
     latest_evidence_date := Some (default "" (latest_evidence_date x));
     evidence := evidence x |}.

(** ** Timeline aggregator: lines 224-238 of [main] *)

Record datetime : Type := {
  year : N;
  month : N;
  day : N
}.

Definition in_range (lo hi c : ascii) : bool :=
  ((lo <=? c) && (c <=? hi))%char.

Definition is_digit : ascii -> bool := in_range "0" "9".

Definition is_char (x c : ascii) : bool := Ascii.eqb x c.

(** [int] of one character of a matched group; the blank of a space-padded
    day counts for nothing. *)
Definition digit (c : ascii) : N :=
  if is_digit c then (N_of_ascii c - 48)%N else 0%N.

(** A piece of the format expression: the value read and the text left. *)
Definition reader : Type := string -> option (N * string).

Definition one (p : ascii -> bool) : reader := fun s =>
  match s with
  | String a rest => if p a then Some (digit a, rest) else None
  | EmptyString => None
  end.

Definition two (p1 p2 : ascii -> bool) : reader := fun s =>
  match s with
  | String a (String b rest) =>
      if p1 a && p2 b then Some ((10 * digit a + digit b)%N, rest) else None
  | _ => None
  end.

(** [\d\d\d\d] *)
Definition directive_Y : reader := fun s =>
  match two is_digit is_digit s with
  | Some (hi, s') =>
      match two is_digit is_digit s' with
      | Some (lo, rest) => Some ((100 * hi + lo)%N, rest)
      | None => None
      end
  | None => None
  end.

(** [1[0-2]|0[1-9]|[1-9]] *)
Definition directive_m : list reader :=
  [two (is_char "1") (in_range "0" "2");
   two (is_char "0") (in_range "1" "9");
   one (in_range "1" "9")].

(** [3[0-1]|[1-2]\d|0[1-9]|[1-9]| [1-9]] *)
Definition directive_d : list reader :=
  [two (is_char "3") (in_range "0" "1");
   two (in_range "1" "2") is_digit;
   two (is_char "0") (in_range "1" "9");
   one (in_range "1" "9");
   two (is_char " ") (in_range "1" "9")].

(** An alternation followed by the rest [k] of the expression: the
    alternatives are tried in order, and the next one is taken when the rest
    fails after the current one. *)
Fixpoint alternation {T} (alts : list reader) (k : N -> string -> option T)
  (s : string) : option T :=
  match alts with
  | [] => None
  | r :: alts' =>
      match match r s with Some (v, s') => k v s' | None => None end with
      | Some t => Some t
      | None => alternation alts' k s
      end
  end.

Definition dash {T} (k : string -> option T) (s : string) : option T :=
  match s with
  | String "-" rest => k rest
  | _ => None
  end.

(** [format_regex.match(data_string)] for the format ["%Y-%m-%d"]: the
    groups and the text after the match. *)
Definition format_match (data_string : string) : option (N * N * N * string) :=
  match directive_Y data_string with
  | Some (Y, s1) =>
      dash (alternation directive_m (fun m =>
        dash (alternation directive_d (fun d rest =>
          Some (Y, m, d, rest))))) s1
  | None => None
  end.

Definition is_leap (y : N) : bool :=
  ((y mod 4 =? 0) && (negb (y mod 100 =? 0) || (y mod 400 =? 0)))%N.

Definition days_in_month (y m : N) : N :=
  match m with
  | 2 => if is_leap y then 29 else 28
  | 4 | 6 | 9 | 11 => 30
  | _ => 31
  end%N.

(** [datetime.strptime(date_str, "%Y-%m-%d")]; [None] is its [ValueError]:
    no match, text left after the match, or no such day in the calendar.
    The digits are the ten of ASCII (on text beyond ASCII the class of the
    digits of [re] is wider). *)
Definition strptime (date_str : string) : option datetime :=
  match format_match date_str with
  | Some (Y, m, d, EmptyString) =>
      if ((1 <=? Y) && (1 <=? d) && (d <=? days_in_month Y m))%N
      then Some {| year := Y; month := m; day := d |}
      else None
  | _ => None
  end.

Definition digit_char (n : N) : ascii := ascii_of_N (48 + n mod 10).

(** [str(timestamp.to_period("M"))]: the label YYYY-MM of the month. *)
Definition year_month (t : datetime) : string :=
  String (digit_char (year t / 1000))
    (String (digit_char (year t / 100))
      (String (digit_char (year t / 10))
        (String (digit_char (year t))
          (String "-"
            (String (digit_char (month t / 10))
              (String (digit_char (month t)) EmptyString)))))).

(** The body of the inner loop: what one evidence item adds to
    [all_dates]. *)
Definition dates_of_evidence (e : Evidence) : list datetime :=
  let date_str := default "" (date e) in
  if truthy date_str then
    match strptime date_str with
    | Some date_obj => [date_obj]
    | None => []
    end
  else [].

(** The two nested loops that fill [all_dates]. *)
Definition collect_dates (ps : list Profile) : list datetime :=
  flat_map (fun profile =>
    flat_map dates_of_evidence (default [] (evidence profile))) ps.

(** [series.value_counts()]: every distinct label with the number of its
    occurrences.  pandas lists them by falling count; the order is of no
    consequence below, where [sort_index] re-orders the distinct labels. *)
Definition value_counts (labels : list string) : list (string * nat) :=
  map (fun x => (x, count_occ string_dec labels x)) (nodup string_dec labels).

(** [counts.sort_index()] *)
Definition sort_index (counts : list (string * nat)) : list (string * nat) :=
  stable_sort fst String.ltb counts.

Inductive timeline_view : Type :=
| LineChart (date_counts : list (string * nat))
| Info (message : string).

(** The block of the timeline tab, which [main] reaches when the lines
    before it have not raised.  The frame of the dates is taken to hold every
    date that [strptime] returns, with years of four digits, as it does from
    pandas 3 on; [in_timestamp_range] below gives the dates that the time
    stamps of the earlier versions hold. *)
Definition timeline (data : Document) : timeline_view :=
  let all_dates := collect_dates (get_profiles data) in
  match all_dates with
  | [] => Info "No valid dates found in evidence."
  | _ :: _ => LineChart (sort_index (value_counts (map year_month all_dates)))
  end.

(** Every date string of the document, in the order of the loops. *)
Definition date_strings (data : Document) : list string :=
  flat_map (fun profile =>
    map (fun e => default "" (date e)) (default [] (evidence profile)))
    (get_profiles data).

(** The shape that the specification asks of a date string: four digits,
    a dash, two digits, a dash, two digits. *)
Definition shape_YYYY_MM_DD (s : string) : bool :=
  match s with
  | String y1 (String y2 (String y3 (String y4 (String "-"
      (String m1 (String m2 (String "-"
        (String d1 (String d2 EmptyString))))))))) =>
      forallb is_digit [y1; y2; y3; y4; m1; m2; d1; d2]
  | _ => false
  end.

(** The date strings that [strptime] reads, as dates and in order. *)
Definition valid_dates (strs : list string) : list datetime :=
  flat_map (fun s => match strptime s with Some t => [t] | None => [] end)
    strs.

(** The reading of a string of the shape YYYY-MM-DD by its digits, when it
    names a day of the calendar. *)
Definition calendar_date (s : string) : option datetime :=
  match s with
  | String y1 (String y2 (String y3 (String y4 (String _
      (String m1 (String m2 (String _
        (String d1 (String d2 EmptyString))))))))) =>
      let Y :=
        (1000 * digit y1 + 100 * digit y2 + 10 * digit y3 + digit y4)%N in
      let m := (10 * digit m1 + digit m2)%N in
      let d := (10 * digit d1 + digit d2)%N in
      if shape_YYYY_MM_DD s
         && ((1 <=? Y) && (1 <=? m) && (m <=? 12)
             && (1 <=? d) && (d <=? days_in_month Y m))%N
      then Some {| year := Y; month := m; day := d |}
      else None
  | _ => None
  end.

(** The timeline of the specification: a date string counts when it has the
    shape YYYY-MM-DD and names a day of the calendar. *)
Definition strict_timeline (data : Document) : timeline_view :=
  let all_dates :=
    flat_map
      (fun s => match calendar_date s with Some t => [t] | None => [] end)
      (date_strings data) in
  match all_dates with
  | [] => Info "No valid dates found in evidence."
  | _ :: _ => LineChart (sort_index (value_counts (map year_month all_dates)))
  end.

(** The spellings of a calendar day that the format reads: the year in four
    digits, the month and the day in two digits or, below 10, in one; a day
    below 10 also after a blank. *)
Definition four_digits (n : N) : string :=
  String (digit_char (n / 1000))
    (String (digit_char (n / 100))
      (String (digit_char (n / 10))
        (String (digit_char n) EmptyString))).

Definition two_digits (n : N) : string :=
  String (digit_char (n / 10)) (String (digit_char n) EmptyString).

Definition one_digit (n : N) : string := String (digit_char n) EmptyString.

Definition month_spellings (m : N) : list string :=
  if (m <? 10)%N then [two_digits m; one_digit m] else [two_digits m].

Definition day_spellings (d : N) : list string :=
  if (d <? 10)%N
  then [two_digits d; one_digit d; String " " (one_digit d)]
  else [two_digits d].

Definition spellings (t : datetime) : list string :=
  flat_map (fun m =>
    map (fun d => (four_digits (year t) ++ "-" ++ m ++ "-" ++ d)%string)
      (day_spellings (day t)))
    (month_spellings (month t)).

(** A day of the calendar of [datetime]. *)
Definition calendar_day (t : datetime) : bool :=
  ((1 <=? year t) && (year t <=? 9999)
   && (1 <=? month t) && (month t <=? 12)
   && (1 <=? day t) && (day t <=? days_in_month (year t) (month t)))%N.

(** The years whose days a column of time stamps holds in every version of
    pandas: with the time stamps in nanoseconds of pandas before 3, a date
    before 1677-09-21 or after 2262-04-11 is no time stamp, and the frame
    of the dates of lines 236 and 237, which stand outside the [try], is
    not built. *)
Definition in_timestamp_range (t : datetime) : bool :=
  ((1678 <=? year t) && (year t <=? 2261))%N.

(** ** Dataset loader: [load_data] *)

(** The errors of [open] other than [FileNotFoundError]. *)
Inductive os_error : Type :=
| PermissionError
| IsADirectoryError
| OtherOSError (errno : N).

(** The exceptions of the body of the [try]. *)
Inductive load_exn : Type :=
| FileNotFoundError
| OSError (e : os_error)
    (** another error of [open] *)
| UnicodeDecodeError
    (** the bytes of the file are no text in UTF-8 *)
| JSONDecodeError (e : string)
    (** the text is rejected by the decoder; [e] is [str] of the exception *)
| DecoderError (name : string)
    (** another exception of the decoder, such as [RecursionError] *).

(** A script runs on with a value, is halted by [st.stop()] after [st.error]
    has shown a message, or is left by an exception that it does not
    catch. *)
Inductive script (A : Type) : Type :=
| Continue (a : A)
| Stopped (shown : string)
| Uncaught (e : load_exn).
Arguments Continue {A} a.
Arguments Stopped {A} shown.
Arguments Uncaught {A} e.

(** What [open(file_path, 'r', encoding='utf-8')] finds at a path: no file,
    something that it cannot open, or a file with its bytes. *)
Inductive entry : Type :=
| Missing
| Refused (e : os_error)
| Bytes (content : string).

Definition files : Type := string -> entry.

Definition byte_in (lo hi : N) (b : ascii) : bool :=
  ((lo <=? N_of_ascii b) && (N_of_ascii b <=? hi))%N.

(** A byte that continues a character. *)
Definition continuation : ascii -> bool := byte_in 128 191.

(** The strict decoder of the codec [utf-8] accepts the bytes: every
    character is in its shortest form, none is a surrogate, none lies beyond
    U+10FFFF. *)
Fixpoint utf8_valid (bytes : string) : bool :=
  match bytes with
  | EmptyString => true
  | String b0 rest =>
      if byte_in 0 127 b0 then utf8_valid rest
      else if byte_in 194 223 b0 then
        match rest with
        | String b1 rest1 => continuation b1 && utf8_valid rest1
        | _ => false
        end
      else if byte_in 224 239 b0 then
        match rest with
        | String b1 (String b2 rest2) =>
            (if byte_in 224 224 b0 then byte_in 160 191 b1
             else if byte_in 237 237 b0 then byte_in 128 159 b1
             else continuation b1)
            && continuation b2 && utf8_valid rest2
        | _ => false
        end
      else if byte_in 240 244 b0 then
        match rest with
        | String b1 (String b2 (String b3 rest3)) =>
            (if byte_in 240 240 b0 then byte_in 144 191 b1
             else if byte_in 244 244 b0 then byte_in 128 143 b1
             else continuation b1)
            && continuation b2 && continuation b3 && utf8_valid rest3
        | _ => false
        end
      else false
  end.

Definition carriage_return : ascii := "013"%char.

(** The translation of line ends by a file opened in text mode with the
    default [newline=None]: a carriage return, with the line feed after it
    when there is one, is read as one line feed. *)
Fixpoint universal_newlines (s : string) : string :=
  match s with
  | EmptyString => EmptyString
  | String c rest =>
      if Ascii.eqb c carriage_return then
        match rest with
        | String c' rest' =>
            if Ascii.eqb c' newline
            then String newline (universal_newlines rest')
            else String newline (universal_newlines rest)
        | EmptyString => String newline EmptyString
        end
      else String c (universal_newlines rest)
  end.

(** [f.read()]: the text of the file, or [None] for [UnicodeDecodeError]. *)
Definition f_read (content : string) : option string :=
  if utf8_valid content then Some (universal_newlines content) else None.

(** What the decoder of [json] makes of a text. *)
Inductive decoded : Type :=
| Parsed (data : Document)
| NotJSON (e : string)
    (** [JSONDecodeError], with its message, line and column as [str]
        spells them *)
| Failed (name : string)
    (** another exception *).

Section Loader.
(** [json.loads], the decoder of the library, on the text of a file. *)
Variable json_loads : string -> decoded.

(** The body of the [try]: [open], then [json.load(f)], which reads the
    whole file and decodes its text. *)
Definition read_document (fs : files) (file_path : string)
  : load_exn + Document :=
  match fs file_path with
  | Missing => inl FileNotFoundError
  | Refused e => inl (OSError e)
  | Bytes content =>
      match f_read content with
      | None => inl UnicodeDecodeError
      | Some text =>
          match json_loads text with
          | Parsed data => inr data
          | NotJSON e => inl (JSONDecodeError e)
          | Failed name => inl (DecoderError name)
          end
      end
  end.

(** The two [except] clauses catch [FileNotFoundError] and
    [json.JSONDecodeError]; every other exception leaves the function.
    ([st.cache_data] keeps the value of a call that returned; the embedding
    is of the body that computes it.) *)
Definition load_data (fs : files) (file_path : string) : script Document :=
  match read_document fs file_path with
  | inr data => Continue data
  | inl FileNotFoundError => Stopped ("❌ File not found: " ++ file_path)
  | inl (JSONDecodeError e) => Stopped ("❌ Error parsing JSON: " ++ e)
  | inl e => Uncaught e
  end.
End Loader.

(** ** Sidebar options: lines 105-114 of [main] *)

(** [df.empty]: one of the two axes has length 0. *)
Definition empty (df : DataFrame) : bool :=
  match columns df, rows df with
  | _ :: _, _ :: _ => false
  | _, _ => true
  end.

(** [series.max()] of a column of counts; [None] is the [nan] of a series
    without element. *)
Definition series_max (values : list N) : option N :=
  match values with
  | [] => None
  | v :: vs => Some (fold_left N.max vs v)
  end.

(** [int(df["evidence_count"].max()) if not df.empty else 10], the upper end
    of the slider; [Ok None] is the [ValueError] of [int] on [nan]. *)
Definition slider_max (df : DataFrame) : result (option N) :=
  if negb (empty df) then
    ec <- getitem df "evidence_count" r_evidence_count ;;
    Ok (series_max ec)
  else Ok (Some 10%N).

(** [series.unique()]: the values in the order of their first occurrence. *)
Definition unique (values : list string) : list string :=
  rev (nodup string_dec (rev values)).

(** [sorted(values)] on strings. *)
Definition sorted (values : list string) : list string :=
  list_sort (fun v => v) String.ltb false values.

(** [["All"] + sorted(df["company_size"].unique().tolist())] *)
Definition company_sizes (df : DataFrame) : result (list string) :=
  cs <- getitem df "company_size" r_company_size ;;
  Ok ("All" :: sorted (unique cs)).

(** ** Top profiles: line 186 of [main] *)

(** The [dtype] of a column of counts: an integer type of 64 bits as long as
    every count fits one, and [object] from the first count that does not. *)
Definition numeric_dtype (values : list N) : bool :=
  forallb (fun v => v <? 2 ^ 64)%N values.

(** [df.nlargest(n, "evidence_count")], with its default [keep="first"]: the
    first [n] rows of the frame in falling order of the count, rows of equal
    count in the order of the frame.  A column of [dtype] [object] is
    refused. *)
Definition nlargest (n : nat) (df : DataFrame) : result DataFrame :=
  ec <- getitem df "evidence_count" r_evidence_count ;;
  if numeric_dtype ec then
    Ok {| columns := columns df;
          rows := firstn n (list_sort r_evidence_count N.ltb true (rows df)) |}
  else
    Raise (TypeError
      "Column 'evidence_count' has dtype object, cannot use method 'nlargest' with this dtype").

(** [frame[[label, ...]]]: the frame of the listed columns. *)
Fixpoint getitems (df : DataFrame) (labels : list string)
  : result DataFrame :=
  match labels with
  | [] => Ok {| columns := []; rows := rows df |}
  | l :: ls =>
      if existsb (String.eqb l) (columns df)
      then rest <- getitems df ls ;;
           Ok {| columns := l :: columns rest; rows := rows rest |}
      else Raise (KeyError l)
  end.

Definition top_profiles (df : DataFrame) : result DataFrame :=
  largest <- nlargest 10 df ;;
  getitems largest ["username"; "full_name"; "company"; "evidence_count"].

(** ** Notions used in the statements *)

(** The frame narrowed to the rows that satisfy [f]. *)
Definition restrict (f : Row -> bool) (df : DataFrame) : DataFrame :=
  {| columns := columns df; rows := filter f (rows df) |}.

(** The mask entry that the search computes for a row. *)
Definition row_search (p : pattern) (r : Row) : bool :=
  re_search p (r_username r) || re_search p (r_full_name r).

(** The row test of each filter step under a query: the test of a step that
    the query switches off accepts every row. *)
Definition step_test (q : Query) (s : step) : result (Row -> bool) :=
  match s with
  | Search =>
      if truthy (search_query q)
      then p <- re_compile (search_query q) ;; Ok (row_search p)
      else Ok (fun _ => true)
  | Threshold => Ok (fun r => (min_evidence q <=? r_evidence_count r)%N)
  | Size =>
      if negb (String.eqb (selected_size q) "All")
      then Ok (fun r => String.eqb (r_company_size r) (selected_size q))
      else Ok (fun _ => true)
  end.

(** The test of a run of steps: a row passes when it passes every step. *)
Fixpoint order_test (q : Query) (order : list step) : result (Row -> bool) :=
  match order with
  | [] => Ok (fun _ => true)
  | s :: rest =>
      f <- step_test q s ;;
      g <- order_test q rest ;;
      Ok (fun r => f r && g r)
  end.

(** Whether the search of the sidebar keeps a row: the search filter run on
    the frame of that one row. *)
Definition search_keeps (search : string) (r : Row) : result bool :=
  filtered_df <-
    search_filter
      {| search_query := search; min_evidence := 0%N; selected_size := "All" |}
      (pd_DataFrame [r]) ;;
  Ok (match rows filtered_df with [] => false | _ :: _ => true end).

(** [q] occurs in [s] when case is ignored. *)
Definition casefold_infix (q s : string) : Prop :=
  exists pre post, lower s = (pre ++ lower q ++ post)%string.

(** A query none of whose characters is special to [re]. *)
Fixpoint plain (q : string) : bool :=
  match q with
  | EmptyString => true
  | String c q' => negb (mem_char c SPECIAL_CHARS) && plain q'
  end.

(** The pattern that reads every character of [q] as itself. *)
Fixpoint literally (q : string) : pattern :=
  match q with
  | EmptyString => []
  | String c q' => LITERAL c :: literally q'
  end.

(** The row test of the three filters together under a query that is read
    literally. *)
Definition literal_test (q : Query) (r : Row) : bool :=
  (negb (truthy (search_query q))
   || row_search (literally (search_query q)) r)
  && (min_evidence q <=? r_evidence_count r)%N
  && (String.eqb (selected_size q) "All"
      || String.eqb (r_company_size r) (selected_size q)).

(** Text of ASCII characters only.  On such text the case folding of this
    embedding is the one of [re.IGNORECASE] and of [str.lower], and a
    character is one code point; the statements about the outcome of a
    search ask it of the query and of the two searched fields of a row. *)
Definition ascii_char (c : ascii) : bool := (N_of_ascii c <? 128)%N.

Fixpoint ascii_text (s : string) : bool :=
  match s with
  | EmptyString => true
  | String c s' => ascii_char c && ascii_text s'
  end.

Definition ascii_row (r : Row) : bool :=
  ascii_text (r_username r) && ascii_text (r_full_name r).

(** The query is within the embedded fragment of [re]: literal characters
    and dots. *)
Definition in_fragment (q : string) : bool :=
  match parse q with Some _ => true | None => false end.

(** [x] stands before [y] in [l]. *)
Definition precedes {A} (x y : A) (l : list A) : Prop :=
  exists l1 l2 l3, l = l1 ++ x :: l2 ++ y :: l3.

(** The profile has the [username] key. *)
Definition has_username (p : Profile) : bool :=
  match username p with Some _ => true | None => false end.

(** ** Sample data *)

Definition sample_profile (u : option string) (n : option N) : Profile :=
  {| username := u; full_name := None; roles := None; company := None;
     company_size := None; profile_url := None; evidence_count := n;
     first_evidence_date := None; latest_evidence_date := None;
     evidence := None |}.

(** Two profiles share the username [alice]; one profile has none. *)
Definition sample_document : Document :=
  {| metadata := None;
     profiles := Some [sample_profile (Some "alice") (Some 3%N);
                       sample_profile (Some "alice") None;
                       sample_profile None (Some 2%N);
                       sample_profile (Some "bob") (Some 5%N)] |}.

Definition sample_query : Query :=
  {| search_query := "ALICE"; min_evidence := 1%N; selected_size := "All" |}.

Definition sample_row (u f : string) : Row :=
  {| r_username := u; r_full_name := f; r_roles := ""; r_company := "";
     r_company_size := ""; r_evidence_count := 0%N; r_first_date := "";
     r_latest_date := "" |}.

Definition sample_evidence (d : string) : Evidence :=
  {| date := Some d; quote := None; tweet_url := None |}.

(** One evidence item, dated 2024-1-5 without padding. *)
Definition unpadded_document : Document :=
  {| metadata := None;
     profiles :=
       Some [{| username := Some "alice"; full_name := None; roles := None;
                company := None; company_size := None; profile_url := None;
                evidence_count := Some 1%N; first_evidence_date := None;
                latest_evidence_date := None;
                evidence := Some [sample_evidence "2024-1-5"] |}] |}.

(** Profiles with distinct usernames, for the statements that need them. *)
Definition distinct_document : Document :=
  {| metadata := None;
     profiles := Some [sample_profile (Some "alice") (Some 3%N);
                       sample_profile (Some "bob") None;
                       sample_profile (Some "carol") (Some 5%N)] |}.

Definition absent_size_query : Query :=
  {| search_query := ""; min_evidence := 0%N; selected_size := "Enterprise" |}.

(** The dates of [sample_document], with evidence, in two arrangements. *)
(** The word [cafe] with an acute accent, as Latin-1 writes it: the byte of
    the accented letter opens a character of three bytes in UTF-8, and no
    byte follows it. *)
Definition latin1_text : string := "caf" ++ String (ascii_of_N 233) "".

Definition latin1_files : files := fun file_path =>
  if String.eqb file_path "consolidated_profiles.json"
  then Bytes latin1_text else Missing.

Definition dated_profile (u : string) (ds : list string) : Profile :=
  {| username := Some u; full_name := None; roles := None; company := None;
     company_size := None; profile_url := None; evidence_count := None;
     first_evidence_date := None; latest_evidence_date := None;
     evidence := Some (map sample_evidence ds) |}.

Definition dated_document : Document :=
  {| metadata := None;
     profiles := Some [dated_profile "alice" ["2024-01-15"; "bad-date"];
                       dated_profile "bob" ["2024-02-01"; "2024-01-20"]] |}.

Definition dated_document' : Document :=
  {| metadata := None;
     profiles :=
       Some [dated_profile "bob" ["2024-01-20"; "2024-02-01"; "bad-date"];
             dated_profile "alice" ["2024-01-15"]] |}.

(** * Properties *)

(** ** Frames and masks *)

Lemma bind_Ok_inv {A B} (m : result A) (k : A -> result B) (b : B) :
  bind m k = Ok b -> exists a, m = Ok a /\ k a = Ok b.
Proof. destruct m as [a|e]; simpl; [eauto | discriminate]. Qed.

Lemma select_mask_of_test (f : Row -> bool) (df : DataFrame) :
  select df (map f (rows df)) = restrict f df.
Proof.
  unfold select, restrict. f_equal.
  induction (rows df) as [|r rs IH]; simpl; [reflexivity|].
  destruct (f r); simpl; now rewrite IH.
Qed.

Lemma mask_or_of_tests {A} (f g : A -> bool) (l : list A) :
  mask_or (map f l) (map g l) = map (fun x => f x || g x) l.
Proof.
  unfold mask_or. induction l as [|x l IH]; simpl; [reflexivity|].
  now rewrite IH.
Qed.

Lemma restrict_all (df : DataFrame) : restrict (fun _ => true) df = df.
Proof.
  destruct df as [cs rs]. unfold restrict. simpl. f_equal.
  induction rs as [|r rs IH]; simpl; congruence.
Qed.

Lemma restrict_restrict (f g : Row -> bool) (df : DataFrame) :
  restrict g (restrict f df) = restrict (fun r => f r && g r) df.
Proof.
  unfold restrict. simpl. f_equal.
  induction (rows df) as [|r rs IH]; simpl; [reflexivity|].
  destruct (f r); simpl; [destruct (g r)|]; now rewrite IH.
Qed.

Lemma restrict_ext (f g : Row -> bool) (df : DataFrame) :
  (forall r, f r = g r) -> restrict f df = restrict g df.
Proof.
  intros E. unfold restrict. f_equal. now apply filter_ext.
Qed.

Lemma getitem_row_keys {A} (df : DataFrame) (key : string)
  (field : Row -> A) :
  columns df = row_keys -> In key row_keys ->
  getitem df key field = Ok (map field (rows df)).
Proof.
  intros Hc Hk. unfold getitem. rewrite Hc.
  replace (existsb (String.eqb key) row_keys) with true; [reflexivity|].
  symmetry. apply existsb_exists. exists key. split; [assumption|].
  apply String.eqb_refl.
Qed.

Lemma getitem_no_columns {A} (df : DataFrame) (key : string)
  (field : Row -> A) :
  columns df = [] -> getitem df key field = Raise (KeyError key).
Proof. intros Hc. unfold getitem. now rewrite Hc. Qed.

(** On a frame that has the columns, a step narrows the frame to the rows
    that pass its test, and raises only when the pattern does not compile. *)
Lemma run_step_row_keys (q : Query) (s : step) (df : DataFrame) :
  columns df = row_keys ->
  run_step q s df = (f <- step_test q s ;; Ok (restrict f df)).
Proof.
  intros Hc. destruct s; simpl.
  - unfold search_filter. destruct (truthy (search_query q)); simpl.
    + rewrite !getitem_row_keys by (assumption || (simpl; tauto)).
      unfold str_contains. cbn [bind].
      destruct (re_compile (search_query q)) as [p|e]; cbn [bind];
        [|reflexivity].
      now rewrite !map_map, mask_or_of_tests, select_mask_of_test.
    + now rewrite restrict_all.
  - unfold evidence_filter.
    rewrite getitem_row_keys by (assumption || (simpl; tauto)). simpl.
    now rewrite map_map, select_mask_of_test.
  - unfold size_filter.
    destruct (negb (selected_size q =? "All")); simpl.
    + rewrite getitem_row_keys by (assumption || (simpl; tauto)). simpl.
      now rewrite map_map, select_mask_of_test.
    + now rewrite restrict_all.
Qed.

Lemma apply_filters_run_steps (df : DataFrame) (q : Query) :
  apply_filters df q = run_steps q [Search; Threshold; Size] df.
Proof.
  unfold apply_filters. simpl.
  destruct (search_filter q df) as [d1|]; simpl; [|reflexivity].
  destruct (evidence_filter q d1) as [d2|]; simpl; [|reflexivity].
  now destruct (size_filter q d2).
Qed.

(** ** Row projector *)

Lemma extract_loop_app (acc : list Row) (ps : list Profile) :
  extract_loop acc ps = acc ++ map make_row ps.
Proof.
  revert acc. induction ps as [|p ps IH]; intros acc; simpl.
  - now rewrite app_nil_r.
  - now rewrite IH, <- app_assoc.
Qed.

Lemma extract_dataframe_map (data : Document) :
  rows (extract_dataframe data) = map make_row (get_profiles data).
Proof. unfold extract_dataframe. simpl. now rewrite extract_loop_app. Qed.

(** C4. [extract_dataframe] yields one row per profile, in the order of the
    profiles: the row at an index comes from the profile at that index.  The
    row carries the username of its profile; an absent string field becomes
    the empty string and an absent [evidence_count] becomes 0; the roles
    become their elements joined by a comma and a blank, the empty string
    for no role. *)
Theorem extract_dataframe_one_row_per_profile (data : Document) :
  let ps := get_profiles data in
  let rs := rows (extract_dataframe data) in
  List.length rs = List.length ps
  /\ (forall i, nth_error rs i = option_map make_row (nth_error ps i))
  /\ (forall p,
        r_username (make_row p)
          = match username p with Some u => u | None => "" end
        /\ r_full_name (make_row p)
          = match full_name p with Some s => s | None => "" end
        /\ r_company (make_row p)
          = match company p with Some s => s | None => "" end
        /\ r_company_size (make_row p)
          = match company_size p with Some s => s | None => "" end
        /\ r_first_date (make_row p)
          = match first_evidence_date p with Some s => s | None => "" end
        /\ r_latest_date (make_row p)
          = match latest_evidence_date p with Some s => s | None => "" end
        /\ r_evidence_count (make_row p)
          = match evidence_count p with Some n => n | None => 0%N end
        /\ r_roles (make_row p)
          = match roles p with Some l => join ", " l | None => "" end)
  /\ join ", " [] = ""
  /\ (forall x, join ", " [x] = x)
  /\ (forall x y l,
        join ", " (x :: y :: l) = (x ++ ", " ++ join ", " (y :: l))%string).
Proof.
  cbv zeta. rewrite extract_dataframe_map.
  split; [apply length_map|].
  split; [intros i; apply nth_error_map|].
  split.
  - intros p. unfold make_row, default. simpl.
    repeat split;
      match goal with |- context [match ?o with _ => _ end] =>
        now destruct o end.
  - repeat split; reflexivity.
Qed.

(** ** Filter engine *)

Lemma pd_DataFrame_columns (rs : list Row) :
  rs <> [] -> columns (pd_DataFrame rs) = row_keys.
Proof. destruct rs; [congruence | reflexivity]. Qed.

(** A run of steps on a frame that has the columns narrows it to the rows
    that pass a test. *)
Lemma run_steps_narrows (q : Query) (order : list step) (df out : DataFrame) :
  columns df = row_keys ->
  run_steps q order df = Ok out ->
  exists f, out = restrict f df.
Proof.
  revert df. induction order as [|s order IH]; intros df Hc H; simpl in H.
  - injection H as <-. exists (fun _ => true). now rewrite restrict_all.
  - apply bind_Ok_inv in H as (d1 & H1 & H2).
    rewrite run_step_row_keys in H1 by assumption.
    apply bind_Ok_inv in H1 as (f & _ & H1). injection H1 as <-.
    apply IH in H2 as (g & ->); [|assumption].
    rewrite restrict_restrict. eauto.
Qed.

(** No run that has the threshold step returns on a frame without columns. *)
Lemma run_steps_no_columns (q : Query) (order : list step) (df : DataFrame) :
  columns df = [] -> In Threshold order ->
  exists key, run_steps q order df = Raise (KeyError key).
Proof.
  intros Hc. induction order as [|s order IH]; intros Hin; [destruct Hin|].
  simpl. destruct s; simpl.
  - unfold search_filter. destruct (truthy (search_query q)).
    + rewrite getitem_no_columns by assumption. simpl. eauto.
    + simpl. destruct Hin as [?|Hin]; [discriminate | auto].
  - unfold evidence_filter. rewrite getitem_no_columns by assumption.
    simpl. eauto.
  - unfold size_filter. destruct (negb (selected_size q =? "All")).
    + rewrite getitem_no_columns by assumption. simpl. eauto.
    + simpl. destruct Hin as [?|Hin]; [discriminate | auto].
Qed.

Lemma run_steps_row_keys (q : Query) (order : list step) (df : DataFrame) :
  columns df = row_keys ->
  run_steps q order df = (f <- order_test q order ;; Ok (restrict f df)).
Proof.
  revert df. induction order as [|s order IH]; intros df Hc; simpl.
  - now rewrite restrict_all.
  - rewrite run_step_row_keys by assumption.
    destruct (step_test q s) as [f|e]; simpl; [|reflexivity].
    rewrite IH by assumption.
    destruct (order_test q order) as [g|e]; simpl; [|reflexivity].
    now rewrite restrict_restrict.
Qed.

(** The filtered rows are rows of the input, in their order. *)
Theorem apply_filters_narrows (rs : list Row) (q : Query) (out : DataFrame) :
  apply_filters (pd_DataFrame rs) q = Ok out ->
  exists f, rows out = filter f rs.
Proof.
  rewrite apply_filters_run_steps. intros H.
  destruct rs as [|r rs].
  - destruct (@run_steps_no_columns q [Search; Threshold; Size]
                (pd_DataFrame []) eq_refl) as (key & E); [simpl; tauto|].
    congruence.
  - apply run_steps_narrows in H as (f & ->); [|reflexivity].
    now exists f.
Qed.

(** The identity query returns a frame of at least one row as it is. *)
Theorem apply_filters_identity (rs : list Row) :
  rs <> [] ->
  apply_filters (pd_DataFrame rs) identity_query = Ok (pd_DataFrame rs).
Proof.
  intros Hne. rewrite apply_filters_run_steps.
  rewrite run_steps_row_keys by now apply pd_DataFrame_columns.
  simpl. f_equal. rewrite <- (restrict_all (pd_DataFrame rs)) at 2.
  apply restrict_ext. intros r. now destruct (r_evidence_count r).
Qed.

(** C3. On the frame of no row at all the identity query does not return the
    input: the frame has no column, and the threshold filter raises
    [KeyError] on ["evidence_count"]. *)
Theorem identity_query_raises_on_empty_frame :
  apply_filters (pd_DataFrame []) identity_query
    = Raise (KeyError "evidence_count")
  /\ main_filter {| metadata := None; profiles := Some [] |} identity_query
    = Raise (KeyError "evidence_count")
  /\ main_filter {| metadata := None; profiles := None |} identity_query
    = Raise (KeyError "evidence_count").
Proof. repeat split; reflexivity. Qed.

Lemma getitem_Ok_inv {A} (df : DataFrame) (key : string) (field : Row -> A)
  (v : list A) :
  getitem df key field = Ok v -> v = map field (rows df).
Proof.
  unfold getitem. destruct (existsb _ _); [|discriminate].
  now intros [= <-].
Qed.

Lemma contains_value_spec (x : option string) (rs : list Row) :
  contains_value x (map r_username rs) = true
  <-> exists r, In r rs /\ x = Some (r_username r).
Proof.
  destruct x as [u|]; simpl.
  - rewrite existsb_exists. split.
    + intros (v & Hin & E). apply in_map_iff in Hin as (r & <- & Hin).
      apply String.eqb_eq in E. subst. eauto.
    + intros (r & Hin & [= ->]). exists (r_username r).
      split; [now apply in_map | apply String.eqb_refl].
  - split; [discriminate | intros (r & _ & E); discriminate].
Qed.

Lemma main_filter_Ok_inv (data : Document) (q : Query)
  (filtered_df : DataFrame) (filtered_profiles : list Profile) :
  main_filter data q = Ok (filtered_df, filtered_profiles) ->
  apply_filters (extract_dataframe data) q = Ok filtered_df
  /\ filtered_profiles
     = filter (fun p => contains_value (username p)
                          (map r_username (rows filtered_df)))
         (get_profiles data).
Proof.
  unfold main_filter. intros H.
  apply bind_Ok_inv in H as (df & Hdf & H).
  apply bind_Ok_inv in H as (ps & Hps & [= <- <-]).
  split; [assumption|].
  unfold filter_profiles in Hps.
  apply bind_Ok_inv in Hps as (values & Hv & [= <-]).
  now rewrite (getitem_Ok_inv _ _ _ Hv).
Qed.

(** C5. The filtered profiles are the profiles of the document, in their
    order, that are kept by a test on the username alone: a profile is kept
    exactly when its username is the username of one of the filtered rows.
    So every profile that has the username of a kept profile is kept too,
    whatever its own row did in the filters. *)
Theorem filtered_profiles_share_a_filtered_username
  (data : Document) (q : Query)
  (filtered_df : DataFrame) (filtered_profiles : list Profile) :
  main_filter data q = Ok (filtered_df, filtered_profiles) ->
  (exists keep : Profile -> bool,
      filtered_profiles = filter keep (get_profiles data)
      /\ forall p, keep p = true
           <-> exists r, In r (rows filtered_df)
                 /\ username p = Some (r_username r))
  /\ (forall p p',
        In p filtered_profiles -> In p' (get_profiles data) ->
        username p' = username p -> In p' filtered_profiles).
Proof.
  intros H. apply main_filter_Ok_inv in H as (_ & ->).
  split.
  - eexists. split; [reflexivity|]. intros p. apply contains_value_spec.
  - intros p p' Hp Hp' E. apply filter_In in Hp as (_ & Hp).
    apply filter_In. split; [assumption|]. now rewrite E.
Qed.

Lemma filtered_profiles_share_a_filtered_username_witness :
  let filtered_df :=
    restrict (fun r => (1 <=? r_evidence_count r)%N
                       && String.eqb (r_username r) "alice")
      (extract_dataframe sample_document) in
  let filtered_profiles :=
    [sample_profile (Some "alice") (Some 3%N);
     sample_profile (Some "alice") None] in
  (exists keep : Profile -> bool,
      filtered_profiles = filter keep (get_profiles sample_document)
      /\ forall p, keep p = true
           <-> exists r, In r (rows filtered_df)
                 /\ username p = Some (r_username r))
  /\ (forall p p',
        In p filtered_profiles -> In p' (get_profiles sample_document) ->
        username p' = username p -> In p' filtered_profiles).
Proof.
  cbv zeta.
  apply (@filtered_profiles_share_a_filtered_username
           sample_document sample_query).
  reflexivity.
Defined.

(** C9. A profile without the [username] key, under the identity query: the
    filters return every row of the frame, among them the row of the profile,
    whose username is the empty string; the profile itself is not among the
    filtered profiles. *)
Theorem profile_without_username_is_dropped (data : Document) (p : Profile) :
  In p (get_profiles data) -> username p = None ->
  exists filtered_df filtered_profiles,
    main_filter data identity_query = Ok (filtered_df, filtered_profiles)
    /\ rows filtered_df = map make_row (get_profiles data)
    /\ In (make_row p) (rows filtered_df)
    /\ r_username (make_row p) = ""
    /\ ~ In p filtered_profiles.
Proof.
  intros Hin Hu.
  assert (Hne : extract_loop [] (get_profiles data) <> []).
  { rewrite extract_loop_app. simpl.
    destruct (get_profiles data); [destruct Hin | discriminate]. }
  pose proof (apply_filters_identity Hne) as Hid.
  fold (extract_dataframe data) in Hid.
  unfold main_filter. rewrite Hid. cbn [bind].
  unfold filter_profiles.
  rewrite getitem_row_keys;
    [|now apply pd_DataFrame_columns | simpl; tauto].
  cbn [bind]. do 2 eexists. split; [reflexivity|].
  rewrite extract_dataframe_map.
  split; [reflexivity|].
  split; [now apply in_map|].
  split; [unfold make_row; simpl; now rewrite Hu|].
  intros Hp. apply filter_In in Hp as (_ & Hp).
  now rewrite Hu in Hp.
Qed.

Lemma profile_without_username_is_dropped_witness :
  exists filtered_df filtered_profiles,
    main_filter sample_document identity_query
      = Ok (filtered_df, filtered_profiles)
    /\ rows filtered_df = map make_row (get_profiles sample_document)
    /\ In (make_row (sample_profile None (Some 2%N))) (rows filtered_df)
    /\ r_username (make_row (sample_profile None (Some 2%N))) = ""
    /\ ~ In (sample_profile None (Some 2%N)) filtered_profiles.
Proof.
  apply (@profile_without_username_is_dropped sample_document
           (sample_profile None (Some 2%N))).
  - simpl. tauto.
  - reflexivity.
Defined.

(** *** The order of the filters *)

Lemma three_steps_orders (order : list step) :
  Permutation order [Search; Threshold; Size] ->
  In order [[Search; Threshold; Size]; [Search; Size; Threshold];
            [Threshold; Search; Size]; [Threshold; Size; Search];
            [Size; Search; Threshold]; [Size; Threshold; Search]].
Proof.
  intros H.
  assert (ND : NoDup order).
  { apply (Permutation_NoDup (Permutation_sym H)).
    repeat constructor; simpl; intuition congruence. }
  pose proof (Permutation_length H) as L.
  destruct order as [|a [|b [|c [|d order]]]]; try discriminate L.
  destruct a, b, c; simpl; try tauto; exfalso;
    repeat match goal with
           | N : NoDup (_ :: _) |- _ => inversion N; clear N; subst
           end;
    simpl in *; intuition congruence.
Qed.

(** The test of a run does not depend on the order of its three steps: only
    the search can fail, and the tests are combined by conjunction. *)
Lemma order_test_permutation (q : Query) (order : list step) :
  Permutation order [Search; Threshold; Size] ->
  match order_test q order, order_test q [Search; Threshold; Size] with
  | Ok f, Ok g => forall r, f r = g r
  | Raise e, Raise e' => e = e'
  | _, _ => False
  end.
Proof.
  intros H. apply three_steps_orders in H. simpl in H.
  decompose [or] H; clear H; subst; try contradiction;
    cbn [order_test step_test];
    destruct (truthy (search_query q));
    destruct (re_compile (search_query q)) as [p|e];
    destruct (negb (selected_size q =? "All"));
    cbn [bind]; try reflexivity; intros r;
    repeat rewrite andb_true_r; repeat rewrite andb_true_l;
    try reflexivity;
    repeat match goal with
           | |- context [row_search ?p ?r] => destruct (row_search p r)
           | |- context [N.leb ?a ?b] => destruct (N.leb a b)
           | |- context [String.eqb ?a ?b] => destruct (String.eqb a b)
           end; reflexivity.
Qed.

(** C7. The three filters in any order: a run in that order returns a frame
    exactly when the filters in the order of the code return it; on a frame of
    at least one row the two runs are equal, also when the search raises. *)
Theorem filters_commute (rs : list Row) (q : Query) (order : list step) :
  Permutation order [Search; Threshold; Size] ->
  (forall out,
     run_steps q order (pd_DataFrame rs) = Ok out
     <-> apply_filters (pd_DataFrame rs) q = Ok out)
  /\ (rs <> [] ->
      run_steps q order (pd_DataFrame rs) = apply_filters (pd_DataFrame rs) q).
Proof.
  intros H. rewrite apply_filters_run_steps.
  assert (E : rs <> [] ->
              run_steps q order (pd_DataFrame rs)
              = run_steps q [Search; Threshold; Size] (pd_DataFrame rs)).
  { intros Hne.
    rewrite !run_steps_row_keys by now apply pd_DataFrame_columns.
    pose proof (order_test_permutation q H) as T.
    destruct (order_test q order) as [f|e],
             (order_test q [Search; Threshold; Size]) as [g|e'];
      try contradiction; cbn [bind].
    - f_equal. now apply restrict_ext.
    - now subst. }
  split; [|assumption].
  intros out. destruct rs as [|r rs].
  - destruct (@run_steps_no_columns q order (pd_DataFrame []) eq_refl)
      as (k1 & E1).
    { apply (Permutation_in _ (Permutation_sym H)). simpl. tauto. }
    destruct (@run_steps_no_columns q [Search; Threshold; Size]
                (pd_DataFrame []) eq_refl) as (k2 & E2); [simpl; tauto|].
    rewrite E1, E2. split; discriminate.
  - now rewrite E.
Qed.

Lemma filters_commute_witness :
  (forall out,
     run_steps sample_query [Size; Search; Threshold]
       (extract_dataframe sample_document) = Ok out
     <-> apply_filters (extract_dataframe sample_document) sample_query
         = Ok out)
  /\ (rows (extract_dataframe sample_document) <> [] ->
      run_steps sample_query [Size; Search; Threshold]
        (extract_dataframe sample_document)
      = apply_filters (extract_dataframe sample_document) sample_query).
Proof.
  apply (@filters_commute (rows (extract_dataframe sample_document))
           sample_query [Size; Search; Threshold]).
  apply Permutation_sym.
  apply (perm_trans (perm_skip Search (perm_swap Size Threshold []))).
  apply perm_swap.
Defined.

(** ** The search *)

Lemma parse_plain (q : string) : plain q = true -> parse q = Some (literally q).
Proof.
  induction q as [|c q IH]; simpl; [reflexivity|].
  intros H. apply andb_prop in H as (Hc & Hq).
  apply negb_true_iff in Hc.
  assert (Hdot : Ascii.eqb c "." = false).
  { pose proof Hc as Hc'. simpl in Hc'.
    now apply orb_false_elim in Hc' as (Hc' & _). }
  rewrite Hc, Hdot, (IH Hq). reflexivity.
Qed.

Lemma match_here_literally (q s : string) :
  match_here (literally q) s = true
  <-> exists post, lower s = (lower q ++ post)%string.
Proof.
  revert s. induction q as [|a q IH]; intros s; simpl.
  - split; [eauto | reflexivity].
  - destruct s as [|c s]; simpl.
    + split; [discriminate | intros (post & E); discriminate].
    + rewrite andb_true_iff, IH, Ascii.eqb_eq. split.
      * intros (-> & post & ->). eauto.
      * intros (post & [= -> ->]). eauto.
Qed.

Lemma re_search_literally (q s : string) :
  re_search (literally q) s = true <-> casefold_infix q s.
Proof.
  unfold casefold_infix. induction s as [|c s IH]; simpl.
  - rewrite orb_false_r, match_here_literally. simpl. split.
    + intros (post & E). now exists EmptyString, post.
    + intros (pre & post & E). destruct pre; [eauto | discriminate].
  - rewrite orb_true_iff, IH, match_here_literally. simpl. split.
    + intros [(post & E) | (pre & post & E)].
      * now exists EmptyString, post.
      * exists (String (lower_char c) pre), post. simpl. now rewrite E.
    + intros (pre & post & E). destruct pre as [|c' pre]; simpl in E.
      * left. eauto.
      * right. injection E as _ E. eauto.
Qed.

(** What the search does, on ASCII text, with a query that has no special
    character: it keeps the rows in whose username or full name the query
    occurs, case ignored; the empty query keeps every row. *)
Theorem search_keeps_plain (q : string) (r : Row) :
  plain q = true -> ascii_text q = true -> ascii_row r = true ->
  exists b, search_keeps q r = Ok b
    /\ (b = true <->
        casefold_infix q (r_username r) \/ casefold_infix q (r_full_name r)).
Proof.
  intros Hq _ _. unfold search_keeps.
  change (search_filter ?x) with (run_step x Search).
  rewrite run_step_row_keys by reflexivity.
  cbn [step_test search_query]. destruct q as [|c q].
  - simpl. exists true. split; [reflexivity|].
    split; [|reflexivity]. intros _. left.
    now exists EmptyString, (lower (r_username r)).
  - cbn [truthy]. unfold re_compile. rewrite (parse_plain _ Hq).
    cbn [bind restrict rows pd_DataFrame filter].
    exists (row_search (literally (String c q)) r). split.
    + now destruct (row_search _ r).
    + rewrite <- !re_search_literally, <- orb_true_iff. reflexivity.
Qed.

(** The filters return on every document of at least one profile when the
    query has no special character. *)
Theorem main_filter_returns (data : Document) (q : Query) :
  get_profiles data <> [] -> plain (search_query q) = true ->
  exists filtered_df filtered_profiles,
    main_filter data q = Ok (filtered_df, filtered_profiles).
Proof.
  intros Hne Hq. unfold main_filter.
  assert (Hc : columns (extract_dataframe data) = row_keys).
  { apply pd_DataFrame_columns. rewrite extract_loop_app. simpl.
    destruct (get_profiles data); [congruence | discriminate]. }
  rewrite apply_filters_run_steps, run_steps_row_keys by assumption.
  assert (T : exists f, order_test q [Search; Threshold; Size] = Ok f).
  { cbn [order_test step_test]. unfold re_compile.
    rewrite (parse_plain _ Hq).
    destruct (truthy (search_query q)),
             (negb (selected_size q =? "All")); cbn [bind]; eauto. }
  destruct T as (f & ->). cbn [bind]. unfold filter_profiles.
  rewrite getitem_row_keys; [|exact Hc | simpl; tauto].
  cbn [bind]. eauto.
Qed.

Example search_keeps_ALICE :
  search_keeps "ALICE" (sample_row "alice_dev" "") = Ok true.
Proof. reflexivity. Qed.

(** C1. The query is searched as a regular expression.  The query of one
    dot keeps the row of [bob], although no dot occurs in the username or in
    the full name of that row; the query of one question mark keeps no row
    and drops none: the search raises [re.error]. *)
Theorem search_keeps_dot_without_occurrence :
  search_keeps "." (sample_row "bob" "Bob Smith") = Ok true
  /\ ~ casefold_infix "." "bob"
  /\ ~ casefold_infix "." "Bob Smith"
  /\ search_keeps "?" (sample_row "bob" "Bob Smith")
     = Raise (ReError "nothing to repeat").
Proof.
  split; [reflexivity|].
  split; [|split; [|reflexivity]];
    rewrite <- re_search_literally; simpl; discriminate.
Qed.

(** ** Sort engine *)

Section SortFacts.
Variables (A K : Type) (key : A -> K) (lt : K -> K -> bool).

Lemma insert_Permutation (x : A) (l : list A) :
  Permutation (insert key lt x l) (x :: l).
Proof.
  induction l as [|y l IH]; simpl; [reflexivity|].
  destruct (lt (key y) (key x)); [|reflexivity].
  rewrite IH. apply perm_swap.
Qed.

Lemma stable_sort_Permutation (l : list A) :
  Permutation (stable_sort key lt l) l.
Proof.
  induction l as [|x l IH]; simpl; [reflexivity|].
  now rewrite insert_Permutation, IH.
Qed.

Lemma list_sort_Permutation (reverse : bool) (l : list A) :
  Permutation (list_sort key lt reverse l) l.
Proof.
  unfold list_sort. destruct reverse; [|apply stable_sort_Permutation].
  now rewrite <- Permutation_rev, stable_sort_Permutation, <- Permutation_rev.
Qed.

(** *** Stability: a class of elements that [lt] does not tell apart keeps
    its order *)

Variable class : A -> bool.
Hypothesis class_unordered :
  forall x y, class x = true -> class y = true -> lt (key x) (key y) = false.

Lemma filter_insert (x : A) (l : list A) :
  filter class (insert key lt x l) = filter class (x :: l).
Proof.
  induction l as [|y l IH]; simpl; [reflexivity|].
  destruct (lt (key y) (key x)) eqn:E; simpl; [|reflexivity].
  rewrite IH. simpl.
  destruct (class x) eqn:Cx, (class y) eqn:Cy; try reflexivity.
  now rewrite (class_unordered Cy Cx) in E.
Qed.

Lemma stable_sort_stable (l : list A) :
  filter class (stable_sort key lt l) = filter class l.
Proof.
  induction l as [|x l IH]; simpl; [reflexivity|].
  rewrite filter_insert. simpl. now rewrite IH.
Qed.

Lemma list_sort_stable (reverse : bool) (l : list A) :
  filter class (list_sort key lt reverse l) = filter class l.
Proof.
  unfold list_sort. destruct reverse; [|apply stable_sort_stable].
  now rewrite filter_rev, stable_sort_stable, filter_rev, rev_involutive.
Qed.

(** *** Order of the result *)

Hypothesis lt_asym : forall a b, lt a b = true -> lt b a = false.
Hypothesis not_lt_trans :
  forall a b c, lt b a = false -> lt c b = false -> lt c a = false.

Lemma insert_ascending (x : A) (l : list A) :
  ascending key lt l -> ascending key lt (insert key lt x l).
Proof.
  unfold ascending. induction l as [|y l IH]; intros S; simpl.
  - constructor; constructor.
  - apply StronglySorted_inv in S as (S & Hy).
    destruct (lt (key y) (key x)) eqn:E.
    + constructor; [now apply IH|].
      apply (Permutation_Forall (Permutation_sym (insert_Permutation x l))).
      constructor; [now apply lt_asym | assumption].
    + constructor; [now constructor|].
      constructor; [assumption|].
      eapply Forall_impl; [|exact Hy]. simpl. intros z Hz.
      now apply not_lt_trans with (b := key y).
Qed.

Lemma stable_sort_ascending (l : list A) :
  ascending key lt (stable_sort key lt l).
Proof.
  induction l as [|x l IH]; simpl; [constructor | now apply insert_ascending].
Qed.

Lemma falling_rev (l : list A) :
  ascending key lt l -> falling key lt (rev l).
Proof.
  unfold ascending, falling. induction l as [|y l IH]; intros S; simpl.
  - constructor.
  - apply StronglySorted_inv in S as (S & Hy).
    specialize (IH S). revert IH.
    generalize (Forall_rev Hy). generalize (rev l). clear.
    intros l. induction l as [|z l IH]; intros F S; simpl.
    + constructor; constructor.
    + apply StronglySorted_inv in S as (S & Hz).
      apply Forall_cons_iff in F as (Fz & F).
      constructor; [now apply IH|].
      apply Forall_app. split; [assumption | now constructor].
Qed.

Lemma list_sort_ordered (reverse : bool) (l : list A) :
  if reverse then falling key lt (list_sort key lt reverse l)
  else ascending key lt (list_sort key lt reverse l).
Proof.
  unfold list_sort. destruct reverse.
  - apply falling_rev, stable_sort_ascending.
  - apply stable_sort_ascending.
Qed.
End SortFacts.

(** *** The stable arrangement is unique *)

Section StableUnique.
Variables (A K : Type) (key : A -> K) (lt : K -> K -> bool).
Hypothesis lt_asym : forall a b, lt a b = true -> lt b a = false.
Hypothesis not_lt_trans :
  forall a b c, lt b a = false -> lt c b = false -> lt c a = false.

Lemma lt_irrefl (a : K) : lt a a = false.
Proof.
  destruct (lt a a) eqn:E; [|reflexivity].
  pose proof (lt_asym E) as E'. congruence.
Qed.

Lemma tied_refl (x : A) : tied key lt x x = true.
Proof. unfold tied. now rewrite lt_irrefl. Qed.

Lemma tied_unordered (x a b : A) :
  tied key lt x a = true -> tied key lt x b = true ->
  lt (key a) (key b) = false.
Proof.
  unfold tied. rewrite !andb_true_iff, !negb_true_iff.
  intros (Hxa & Hax) (Hxb & Hbx).
  now apply not_lt_trans with (b := key x).
Qed.

(** Two ascending lists in which every class of tied elements is the same
    sequence are the same list. *)
Lemma ascending_unique (l1 l2 : list A) :
  ascending key lt l1 -> ascending key lt l2 ->
  (forall x, filter (tied key lt x) l1 = filter (tied key lt x) l2) ->
  l1 = l2.
Proof.
  unfold ascending. revert l2.
  induction l1 as [|a l1 IH]; intros l2 S1 S2 F.
  - destruct l2 as [|b l2]; [reflexivity|].
    specialize (F b). simpl in F. now rewrite tied_refl in F.
  - destruct l2 as [|b l2].
    { specialize (F a). simpl in F. now rewrite tied_refl in F. }
    apply StronglySorted_inv in S1 as (S1 & Ha).
    apply StronglySorted_inv in S2 as (S2 & Hb).
    rewrite Forall_forall in Ha, Hb.
    assert (Hab : lt (key a) (key b) = false).
    { pose proof (F a) as Fa. simpl in Fa. rewrite tied_refl in Fa.
      destruct (tied key lt a b) eqn:T.
      - unfold tied in T. apply andb_prop in T as (T & _).
        now apply negb_true_iff in T.
      - assert (In a (filter (tied key lt a) l2)) as Hin
          by (rewrite <- Fa; now left).
        apply filter_In in Hin as (Hin & _).
        destruct (lt (key a) (key b)) eqn:E; [|reflexivity].
        now rewrite (Hb a Hin) in E. }
    assert (Hba : lt (key b) (key a) = false).
    { pose proof (F b) as Fb. simpl in Fb. rewrite tied_refl in Fb.
      destruct (tied key lt b a) eqn:T.
      - unfold tied in T. apply andb_prop in T as (T & _).
        now apply negb_true_iff in T.
      - assert (In b (filter (tied key lt b) l1)) as Hin
          by (rewrite Fb; now left).
        apply filter_In in Hin as (Hin & _).
        destruct (lt (key b) (key a)) eqn:E; [|reflexivity].
        now rewrite (Ha b Hin) in E. }
    assert (a = b) as <-.
    { pose proof (F a) as Fa. simpl in Fa. rewrite tied_refl in Fa.
      unfold tied at 2 in Fa. rewrite Hab, Hba in Fa. simpl in Fa.
      now injection Fa. }
    f_equal. apply IH; try assumption.
    intros x. specialize (F x). simpl in F.
    destruct (tied key lt x a); [now injection F | assumption].
Qed.
End StableUnique.

(** Whatever algorithm a stable sort runs, it returns the list that
    [list_sort] returns: the arrangement of the input that is in order and
    keeps every class of tied elements as it stood. *)
Theorem list_sort_unique {A K} (key : A -> K) (lt : K -> K -> bool)
  (reverse : bool) (l sorted : list A) :
  (forall a b, lt a b = true -> lt b a = false) ->
  (forall a b c, lt b a = false -> lt c b = false -> lt c a = false) ->
  (if reverse then falling key lt sorted else ascending key lt sorted) ->
  (forall x, filter (tied key lt x) sorted = filter (tied key lt x) l) ->
  sorted = list_sort key lt reverse l.
Proof.
  intros Hasym Htrans S F.
  pose proof (list_sort_ordered key lt Hasym Htrans reverse l) as S'.
  assert (F' : forall x, filter (tied key lt x) sorted
                         = filter (tied key lt x) (list_sort key lt reverse l)).
  { intros x. rewrite F. symmetry. apply list_sort_stable.
    intros a b. now apply tied_unordered. }
  destruct reverse.
  - apply (@ascending_unique _ _ key (fun a b => lt b a)).
    + intros a b. apply Hasym.
    + exact S.
    + exact S'.
    + intros x. specialize (F' x).
      erewrite filter_ext; [rewrite F'; apply filter_ext|];
        intros y; unfold tied; apply andb_comm.
  - now apply (@ascending_unique _ _ key lt Hasym).
Qed.

(** *** The order of the keys: numbers and strings *)

Lemma N_ltb_asym (a b : N) : N.ltb a b = true -> N.ltb b a = false.
Proof. rewrite N.ltb_lt, N.ltb_ge. lia. Qed.

Lemma N_not_ltb_trans (a b c : N) :
  N.ltb b a = false -> N.ltb c b = false -> N.ltb c a = false.
Proof. rewrite !N.ltb_ge. lia. Qed.

Lemma string_compare_refl (s : string) : String.compare s s = Eq.
Proof.
  pose proof (String.compare_antisym s s) as H.
  now destruct (String.compare s s).
Qed.

Lemma string_ltb_irrefl (s : string) : String.ltb s s = false.
Proof. unfold String.ltb. now rewrite string_compare_refl. Qed.

Lemma string_ltb_asym (a b : string) :
  String.ltb a b = true -> String.ltb b a = false.
Proof.
  unfold String.ltb. rewrite (String.compare_antisym b a).
  now destruct (String.compare a b).
Qed.

Lemma string_compare_le_trans (a b c : string) :
  String.compare a b <> Gt -> String.compare b c <> Gt ->
  String.compare a c <> Gt.
Proof.
  revert b c. induction a as [|x a IH]; intros [|y b] [|z c]; simpl;
    try congruence.
  unfold Ascii.compare.
  destruct (N.compare_spec (N_of_ascii x) (N_of_ascii y)) as [E1|L1|G1];
    destruct (N.compare_spec (N_of_ascii y) (N_of_ascii z)) as [E2|L2|G2];
    try congruence; intros H1 H2.
  - rewrite E1, E2, N.compare_refl. now apply IH with (b := b).
  - rewrite (proj2 (N.compare_lt_iff _ _)); [discriminate | lia].
  - rewrite (proj2 (N.compare_lt_iff _ _)); [discriminate | lia].
  - rewrite (proj2 (N.compare_lt_iff _ _)); [discriminate | lia].
Qed.

Lemma string_not_ltb_trans (a b c : string) :
  String.ltb b a = false -> String.ltb c b = false -> String.ltb c a = false.
Proof.
  unfold String.ltb.
  rewrite (String.compare_antisym b a), (String.compare_antisym c b),
    (String.compare_antisym c a).
  pose proof (@string_compare_le_trans a b c) as T.
  destruct (String.compare a b), (String.compare b c), (String.compare a c);
    simpl; intros; try reflexivity; try discriminate;
    exfalso; apply T; congruence.
Qed.

Lemma key_value_class_unordered (k a b : key_value) :
  key_value_eqb a k = true -> key_value_eqb b k = true ->
  key_value_ltb a b = false.
Proof.
  destruct k, a, b; simpl; try discriminate; try reflexivity.
  - rewrite !N.eqb_eq. intros -> ->. apply N.ltb_irrefl.
  - rewrite !String.eqb_eq. intros -> ->. apply string_ltb_irrefl.
Qed.

(** C6. Under each of the four sort options the sorted profiles are the
    input profiles rearranged, in the order of the option (no later profile
    has a greater key when it sorts from high to low, a smaller one
    otherwise), and the profiles whose key equals the key of any given
    profile stand in the order they had in the input.  In particular a, b
    with 5 and c with 3 stay a, b, c from high to low. *)
Theorem sort_profiles_stable :
  Forall (fun sort_option =>
    forall ps : list Profile,
      Permutation (sort_profiles sort_option ps) ps
      /\ (if descending sort_option
          then falling (sort_key sort_option) key_value_ltb
                 (sort_profiles sort_option ps)
          else ascending (sort_key sort_option) key_value_ltb
                 (sort_profiles sort_option ps))
      /\ forall p,
           let same_key x :=
             key_value_eqb (sort_key sort_option x) (sort_key sort_option p) in
           filter same_key (sort_profiles sort_option ps) = filter same_key ps)
    sort_options
  /\ (let a := sample_profile (Some "a") (Some 5%N) in
      let b := sample_profile (Some "b") (Some 5%N) in
      let c := sample_profile (Some "c") (Some 3%N) in
      sort_profiles "Evidence Count (High to Low)" [a; b; c] = [a; b; c]).
Proof.
  split; [|reflexivity].
  repeat constructor.
  - apply list_sort_Permutation.
  - exact (list_sort_ordered key_evidence_count N.ltb
             N_ltb_asym N_not_ltb_trans true ps).
  - intros p same_key. apply list_sort_stable. intros x y Hx Hy.
    exact (key_value_class_unordered _ _ _ Hx Hy).
  - apply list_sort_Permutation.
  - exact (list_sort_ordered key_evidence_count N.ltb
             N_ltb_asym N_not_ltb_trans false ps).
  - intros p same_key. apply list_sort_stable. intros x y Hx Hy.
    exact (key_value_class_unordered _ _ _ Hx Hy).
  - apply list_sort_Permutation.
  - exact (list_sort_ordered key_username String.ltb
             string_ltb_asym string_not_ltb_trans false ps).
  - intros p same_key. apply list_sort_stable. intros x y Hx Hy.
    exact (key_value_class_unordered _ _ _ Hx Hy).
  - apply list_sort_Permutation.
  - exact (list_sort_ordered key_latest String.ltb
             string_ltb_asym string_not_ltb_trans true ps).
  - intros p same_key. apply list_sort_stable. intros x y Hx Hy.
    exact (key_value_class_unordered _ _ _ Hx Hy).
Qed.

(** *** Absent sort keys *)

Section SortMap.
Variables (A B K : Type) (f : A -> B) (key : A -> K) (key' : B -> K).
Variable lt : K -> K -> bool.
Hypothesis key_f : forall x, key' (f x) = key x.

Lemma insert_map (x : A) (l : list A) :
  insert key' lt (f x) (map f l) = map f (insert key lt x l).
Proof.
  induction l as [|y l IH]; simpl; [reflexivity|].
  rewrite !key_f. destruct (lt (key y) (key x)); simpl; [|reflexivity].
  now rewrite IH.
Qed.

Lemma stable_sort_map (l : list A) :
  stable_sort key' lt (map f l) = map f (stable_sort key lt l).
Proof.
  induction l as [|x l IH]; simpl; [reflexivity|].
  now rewrite IH, insert_map.
Qed.

Lemma list_sort_map (reverse : bool) (l : list A) :
  list_sort key' lt reverse (map f l) = map f (list_sort key lt reverse l).
Proof.
  unfold list_sort. destruct reverse; [|apply stable_sort_map].
  now rewrite <- map_rev, stable_sort_map, map_rev.
Qed.
End SortMap.

Lemma StronglySorted_app_r {A} (R : A -> A -> Prop) (l1 l2 : list A) :
  StronglySorted R (l1 ++ l2) -> StronglySorted R l2.
Proof.
  induction l1 as [|x l1 IH]; simpl; [trivial|].
  intros S. now apply StronglySorted_inv in S as (S & _); apply IH.
Qed.

Lemma sorted_precedes {A} (R : A -> A -> Prop) (l : list A) (x y : A) :
  StronglySorted R l -> In x l -> In y l -> x <> y -> ~ R y x ->
  precedes x y l.
Proof.
  intros S Hx Hy Hne HR.
  apply in_split in Hx as (a & b & ->).
  apply in_app_or in Hy as [Hy|[Hy|Hy]].
  - exfalso. apply in_split in Hy as (a1 & a2 & ->).
    rewrite <- app_assoc in S. apply StronglySorted_app_r in S.
    apply StronglySorted_inv in S as (_ & F).
    rewrite Forall_forall in F. apply HR, F.
    apply in_or_app. right. now left.
  - contradiction.
  - apply in_split in Hy as (b1 & b2 & ->). now exists a, b1, b2.
Qed.

Lemma key_value_ltb_irrefl (a : key_value) : key_value_ltb a a = false.
Proof.
  destruct a; simpl; [apply N.ltb_irrefl | apply string_ltb_irrefl].
Qed.

Lemma sort_profiles_Permutation (sort_option : string) (ps : list Profile) :
  Permutation (sort_profiles sort_option ps) ps.
Proof.
  unfold sort_profiles.
  repeat match goal with
         | |- context [if ?b then _ else _] => destruct b
         end; (apply list_sort_Permutation || reflexivity).
Qed.


(** Within [main] the default of the count is at work: the second profile of
    the sample has no evidence count, line 129 keeps it, and the sort by
    rising count places it first, as a profile of count 0; the profile
    without username is not in the list. *)
Example absent_count_reaches_the_sort :
  exists filtered_df filtered_profiles,
    main_filter sample_document identity_query
    = Ok (filtered_df, filtered_profiles)
    /\ map (fun p => (username p, evidence_count p))
         (sort_profiles "Evidence Count (Low to High)" filtered_profiles)
       = [(Some "alice", None); (Some "alice", Some 3%N);
          (Some "bob", Some 5%N)].
Proof. do 2 eexists. split; reflexivity. Qed.

Example sort_by_username_absent_first :
  map username
    (sort_profiles "Username (A-Z)"
       [sample_profile (Some "bob") None; sample_profile None None;
        sample_profile (Some "Alice") None; sample_profile (Some "") None])
  = [None; Some ""; Some "Alice"; Some "bob"].
Proof. reflexivity. Qed.

(** ** Timeline aggregator *)

Lemma flat_map_flat_map {A B C} (f : B -> list C) (g : A -> list B)
  (l : list A) :
  flat_map f (flat_map g l) = flat_map (fun x => flat_map f (g x)) l.
Proof.
  induction l as [|x l IH]; simpl; [reflexivity|].
  now rewrite flat_map_app, IH.
Qed.

Lemma flat_map_map {A B C} (f : B -> list C) (g : A -> B) (l : list A) :
  flat_map f (map g l) = flat_map (fun x => f (g x)) l.
Proof. induction l as [|x l IH]; simpl; [reflexivity | now rewrite IH]. Qed.

(** The loops collect the dates that [strptime] reads among the date strings
    of the document: the empty string, which the loop skips, is one that
    [strptime] does not read. *)
Lemma collect_dates_valid_dates (data : Document) :
  collect_dates (get_profiles data) = valid_dates (date_strings data).
Proof.
  unfold collect_dates, valid_dates, date_strings.
  rewrite flat_map_flat_map. apply flat_map_ext. intros p.
  rewrite flat_map_map. apply flat_map_ext. intros e.
  unfold dates_of_evidence. now destruct (default "" (date e)).
Qed.

Lemma string_ltb_total (a b : string) :
  a <> b -> String.ltb b a = false -> String.ltb a b = true.
Proof.
  unfold String.ltb. rewrite (String.compare_antisym b a).
  destruct (String.compare a b) eqn:E; simpl; try easy.
  now apply String.compare_eq_iff in E.
Qed.

(** Sorting an index of distinct labels puts them in strictly rising
    order. *)
Lemma sort_index_rising (counts : list (string * nat)) :
  NoDup (map fst counts) ->
  StronglySorted (fun a b => String.ltb (fst a) (fst b) = true)
    (sort_index counts).
Proof.
  intros ND.
  assert (ND' : NoDup (map fst (sort_index counts))).
  { eapply Permutation_NoDup; [|exact ND].
    apply Permutation_map, Permutation_sym, stable_sort_Permutation. }
  pose proof (stable_sort_ascending fst String.ltb
                string_ltb_asym string_not_ltb_trans counts) as S.
  fold (sort_index counts) in S. unfold ascending in S.
  induction S as [|a l S IH F]; [constructor|].
  simpl in ND'. apply NoDup_cons_iff in ND' as (Ha & ND').
  constructor; [now apply IH|].
  rewrite Forall_forall in *. intros b Hb.
  apply string_ltb_total; [|now apply F].
  intros E. apply Ha. rewrite E. now apply in_map.
Qed.

Lemma value_counts_In (labels : list string) (m : string) (c : nat) :
  In (m, c) (value_counts labels)
  <-> c = count_occ string_dec labels m /\ 0 < c.
Proof.
  unfold value_counts. rewrite in_map_iff. split.
  - intros (x & [= -> <-] & Hx). split; [reflexivity|].
    apply nodup_In in Hx. now apply (count_occ_In string_dec) in Hx.
  - intros (-> & Hc). exists m. split; [reflexivity|].
    now apply nodup_In, (count_occ_In string_dec).
Qed.

(** *** What the format reads *)

Lemma is_digit_cases (c : ascii) :
  is_digit c = true ->
  In c ["0"; "1"; "2"; "3"; "4"; "5"; "6"; "7"; "8"; "9"]%char.
Proof.
  destruct c as [[] [] [] [] [] [] [] []]; intros H; try discriminate H;
    simpl; repeat (first [left; reflexivity | right]).
Qed.

Ltac digit_cases H :=
  apply is_digit_cases in H; simpl in H; decompose [or] H; clear H;
  subst; try contradiction.

Lemma days_in_month_le (Y m : N) : (days_in_month Y m <= 31)%N.
Proof.
  unfold days_in_month. destruct (is_leap Y);
    (destruct m as [|p]; [lia|]);
    do 5 (try (destruct p as [p|p|]; cbn; try lia)).
Qed.

(** The month group on two digits and a dash: the number of the two digits
    when it is a month. *)
Lemma month_alternation {T} (m1 m2 : ascii) (k : N -> string -> option T)
  (rest : string) :
  is_digit m1 = true -> is_digit m2 = true ->
  alternation directive_m (fun m => dash (k m))
    (String m1 (String m2 (String "-" rest)))
  = (let m := 10 * digit m1 + digit m2 in
     if (1 <=? m) && (m <=? 12) then k m rest else None)%N.
Proof.
  intros H1 H2. digit_cases H1; digit_cases H2; cbn;
    try reflexivity; now destruct (k _ rest).
Qed.

(** The day group on the two last digits: the number of the two digits when
    there is such a day in the month. *)
Lemma day_alternation (d1 d2 : ascii) (Y m : N) :
  is_digit d1 = true -> is_digit d2 = true ->
  match alternation directive_d (fun d rest => Some (Y, m, d, rest))
          (String d1 (String d2 EmptyString)) with
  | Some (Y', m', d, EmptyString) =>
      if ((1 <=? Y') && (1 <=? d) && (d <=? days_in_month Y' m'))%N
      then Some {| year := Y'; month := m'; day := d |}
      else None
  | _ => None
  end
  = (let d := 10 * digit d1 + digit d2 in
     if (1 <=? Y) && (1 <=? d) && (d <=? days_in_month Y m)
     then Some {| year := Y; month := m; day := d |}
     else None)%N.
Proof.
  intros H1 H2. pose proof (days_in_month_le Y m) as L.
  digit_cases H1; digit_cases H2; cbn; try reflexivity;
    try (now rewrite andb_false_r);
    match goal with
    | |- context [(?n <=? days_in_month Y m)%N] =>
        destruct (N.leb_spec n (days_in_month Y m)); [lia|];
        now rewrite andb_false_r
    end.
Qed.

Lemma shape_inv (s : string) :
  shape_YYYY_MM_DD s = true ->
  exists y1 y2 y3 y4 m1 m2 d1 d2,
    s = String y1 (String y2 (String y3 (String y4 (String "-"
          (String m1 (String m2 (String "-"
            (String d1 (String d2 EmptyString)))))))))
    /\ Forall (fun c => is_digit c = true) [y1; y2; y3; y4; m1; m2; d1; d2].
Proof.
  destruct s as [|y1 [|y2 [|y3 [|y4 [|c5 [|m1 [|m2 [|c8 [|d1 [|d2 [|]]]]]]]]]]];
    try discriminate; intros H;
    (destruct c5 as [[] [] [] [] [] [] [] []]; try discriminate H);
    (destruct c8 as [[] [] [] [] [] [] [] []]; try discriminate H).
  exists y1, y2, y3, y4, m1, m2, d1, d2. split; [reflexivity|].
  cbn [shape_YYYY_MM_DD] in H.
  rewrite forallb_forall in H. apply Forall_forall. exact H.
Qed.

Ltac rewrite_digits :=
  match goal with
  | E : is_digit ?c = true |- context [is_digit ?c] => rewrite E
  end.

Theorem strptime_well_shaped (s : string) :
  shape_YYYY_MM_DD s = true -> strptime s = calendar_date s.
Proof.
  intros H. pose proof H as H'.
  apply shape_inv in H' as (y1 & y2 & y3 & y4 & m1 & m2 & d1 & d2 & -> & F).
  unfold calendar_date. rewrite H. clear H.
  repeat (apply Forall_cons_iff in F as (? & F)). clear F.
  unfold strptime, format_match, directive_Y, two.
  repeat (rewrite_digits; cbn [andb dash]).
  rewrite month_alternation by assumption. cbv zeta.
  replace (100 * (10 * digit y1 + digit y2) + (10 * digit y3 + digit y4))%N
    with (1000 * digit y1 + 100 * digit y2 + 10 * digit y3 + digit y4)%N
    by lia.
  set (Y := (1000 * digit y1 + 100 * digit y2 + 10 * digit y3 + digit y4)%N).
  set (m := (10 * digit m1 + digit m2)%N).
  destruct ((1 <=? m)%N && (m <=? 12)%N) eqn:Em.
  - cbn [dash]. rewrite day_alternation by assumption. cbv zeta.
    apply andb_prop in Em as (-> & ->).
    now rewrite !andb_true_r, <- !andb_assoc.
  - cbn [andb]. 
    destruct (1 <=? Y)%N; cbn [andb]; [|reflexivity].
    destruct (1 <=? m)%N, (m <=? 12)%N; try discriminate Em; reflexivity.
Qed.

Lemma digit_char_digit (c : ascii) :
  is_digit c = true -> digit_char (digit c) = c /\ (digit c < 10)%N.
Proof. intros H. digit_cases H; split; reflexivity. Qed.

Lemma digits_of_number (a b c d : N) :
  (a < 10 -> b < 10 -> c < 10 -> d < 10 ->
   let Y := 1000 * a + 100 * b + 10 * c + d in
   (Y / 1000) mod 10 = a /\ (Y / 100) mod 10 = b
   /\ (Y / 10) mod 10 = c /\ Y mod 10 = d)%N.
Proof.
  intros Ha Hb Hc Hd Y. subst Y.
  rewrite <- (N.div_unique _ 1000 a (100 * b + 10 * c + d)) by lia.
  rewrite <- (N.div_unique _ 100 (10 * a + b) (10 * c + d)) by lia.
  rewrite <- (N.div_unique _ 10 (100 * a + 10 * b + c) d) by lia.
  repeat split.
  - now apply N.mod_small.
  - symmetry. apply (N.mod_unique _ 10 a); lia.
  - symmetry. apply (N.mod_unique _ 10 (10 * a + b)); lia.
  - symmetry. apply (N.mod_unique _ 10 (100 * a + 10 * b + c)); lia.
Qed.

Lemma decimal_digits (y : N) :
  (y <= 9999 ->
   y = 1000 * ((y / 1000) mod 10) + 100 * ((y / 100) mod 10)
       + 10 * ((y / 10) mod 10) + y mod 10)%N.
Proof.
  intros Hy.
  pose proof (N.div_mod y 10) as E0.
  pose proof (N.div_mod (y / 10) 10) as E1.
  pose proof (N.div_mod (y / 100) 10) as E2.
  assert (D1 : (y / 10 / 10 = y / 100)%N) by (now rewrite N.Div0.div_div).
  assert (D2 : (y / 100 / 10 = y / 1000)%N) by (now rewrite N.Div0.div_div).
  rewrite D1 in E1. rewrite D2 in E2.
  assert (S : (y / 1000 < 10)%N)
    by (apply N.Div0.div_lt_upper_bound; lia).
  rewrite (N.mod_small (y / 1000) 10) by exact S.
  specialize (E0 ltac:(lia)). specialize (E1 ltac:(lia)).
  specialize (E2 ltac:(lia)). lia.
Qed.

(** The label of a date read from a string of the shape YYYY-MM-DD is the
    year and month part of the string. *)
Theorem year_month_well_shaped (s : string) (t : datetime) :
  shape_YYYY_MM_DD s = true -> strptime s = Some t ->
  year_month t = String.substring 0 7 s.
Proof.
  intros H E. rewrite (strptime_well_shaped _ H) in E.
  apply shape_inv in H as (y1 & y2 & y3 & y4 & m1 & m2 & d1 & d2 & -> & F).
  repeat (apply Forall_cons_iff in F as (? & F)). clear F.
  unfold calendar_date in E. cbv zeta in E.
  set (Y := (1000 * digit y1 + _ + _ + _)%N) in E.
  set (m := (10 * digit m1 + digit m2)%N) in E.
  destruct (_ && _) in E; [|discriminate E]. injection E as <-.
  repeat match goal with
         | D : is_digit _ = true |- _ => apply digit_char_digit in D as (? & ?)
         end.
  simpl (String.substring _ _ _).
  unfold year_month, digit_char, year, month. subst Y m.
  destruct (digits_of_number (a := digit y1) (b := digit y2)
              (c := digit y3) (d := digit y4)) as (E1 & E2 & E3 & E4);
    try assumption.
  destruct (digits_of_number (a := 0) (b := 0)
              (c := digit m1) (d := digit m2)) as (_ & _ & E5 & E6);
    try assumption; try reflexivity.
  change (1000 * 0 + 100 * 0 + 10 * digit m1 + digit m2)%N
    with (10 * digit m1 + digit m2)%N in E5, E6.
  rewrite E1, E2, E3, E4, E5, E6.
  unfold digit_char in *.
  repeat match goal with
         | D : ascii_of_N (48 + digit ?c mod 10) = ?c |- _ =>
             rewrite (N.mod_small (digit c) 10) in D by assumption;
             rewrite D; clear D
         end.
  reflexivity.
Qed.

(** Two lists in strictly rising order of their labels that have the same
    elements are the same list. *)
Lemma rising_unique (l1 l2 : list (string * nat)) :
  StronglySorted (fun a b => String.ltb (fst a) (fst b) = true) l1 ->
  StronglySorted (fun a b => String.ltb (fst a) (fst b) = true) l2 ->
  (forall x, In x l1 <-> In x l2) ->
  l1 = l2.
Proof.
  revert l2. induction l1 as [|a l1 IH]; intros l2 S1 S2 E.
  - destruct l2 as [|b l2]; [reflexivity|].
    destruct (proj2 (E b)). now left.
  - destruct l2 as [|b l2]; [destruct (proj1 (E a)); now left|].
    apply StronglySorted_inv in S1 as (S1 & Ha).
    apply StronglySorted_inv in S2 as (S2 & Hb).
    rewrite Forall_forall in Ha, Hb.
    assert (a = b) as <-.
    { destruct (proj1 (E a)) as [Eb|Hin]; [now left | now symmetry |].
      destruct (proj2 (E b)) as [Ea|Hin']; [now left | assumption |].
      pose proof (string_ltb_asym _ _ (Ha _ Hin')) as C.
      now rewrite (Hb _ Hin) in C. }
    f_equal. apply IH; try assumption.
    intros x. split; intros Hx.
    + destruct (proj1 (E x)) as [<-|Hin]; [now right | | assumption].
      pose proof (Ha _ Hx) as C. now rewrite string_ltb_irrefl in C.
    + destruct (proj2 (E x)) as [<-|Hin]; [now right | | assumption].
      pose proof (Hb _ Hx) as C. now rewrite string_ltb_irrefl in C.
Qed.

Lemma sort_index_In (counts : list (string * nat)) (x : string * nat) :
  In x (sort_index counts) <-> In x counts.
Proof.
  split; apply Permutation_in;
    [|apply Permutation_sym]; apply stable_sort_Permutation.
Qed.

(** The counts of the months do not depend on the order of the labels. *)
Lemma month_counts_Permutation (labels labels' : list string) :
  Permutation labels labels' ->
  sort_index (value_counts labels) = sort_index (value_counts labels').
Proof.
  intros P. apply rising_unique.
  - apply sort_index_rising. unfold value_counts.
    rewrite map_map. simpl. rewrite map_id. apply NoDup_nodup.
  - apply sort_index_rising. unfold value_counts.
    rewrite map_map. simpl. rewrite map_id. apply NoDup_nodup.
  - intros [m c]. rewrite !sort_index_In, !value_counts_In.
    now rewrite (Permutation_count_occ string_dec labels labels') in P;
      rewrite (P m).
Qed.

(** The timeline depends on the date strings of the document only, and not
    on their order: not on how they are spread over the profiles. *)
Lemma timeline_Permutation (data : Document) (strs : list string) :
  Permutation (date_strings data) strs ->
  timeline data
  = match valid_dates strs with
    | [] => Info "No valid dates found in evidence."
    | _ :: _ =>
        LineChart (sort_index (value_counts (map year_month (valid_dates strs))))
    end.
Proof.
  intros P. unfold timeline. rewrite collect_dates_valid_dates.
  assert (P' : Permutation (valid_dates (date_strings data))
                 (valid_dates strs)).
  { unfold valid_dates. now apply Permutation_flat_map. }
  rewrite (month_counts_Permutation (Permutation_map year_month P')).
  destruct (valid_dates (date_strings data)) as [|t ts],
           (valid_dates strs) as [|t' ts']; try reflexivity.
  - now apply Permutation_nil in P'.
  - apply Permutation_sym in P'. now apply Permutation_nil in P'.
Qed.

(** *** The dates that the format reads *)

Lemma ascii_leb_le (a b : ascii) :
  Ascii.leb a b = true <-> (N_of_ascii a <= N_of_ascii b)%N.
Proof.
  unfold Ascii.leb, Ascii.compare.
  destruct (N.compare_spec (N_of_ascii a) (N_of_ascii b));
    split; intros; try reflexivity; try discriminate; lia.
Qed.

Lemma in_range_digit (lo hi c : ascii) :
  in_range lo hi c = true ->
  (48 <= N_of_ascii lo)%N -> (N_of_ascii hi <= 57)%N ->
  (N_of_ascii lo - 48 <= digit c <= N_of_ascii hi - 48)%N.
Proof.
  unfold in_range. rewrite andb_true_iff, !ascii_leb_le. intros (H1 & H2) L H.
  unfold digit, is_digit, in_range.
  replace (Ascii.leb "0" c) with true
    by (symmetry; apply ascii_leb_le; simpl; lia).
  replace (Ascii.leb c "9") with true
    by (symmetry; apply ascii_leb_le; simpl; lia).
  simpl. lia.
Qed.

Lemma one_inv (p : ascii -> bool) (s s' : string) (v : N) :
  one p s = Some (v, s') ->
  exists a, s = String a s' /\ p a = true /\ v = digit a.
Proof.
  destruct s as [|a r]; [discriminate|]. simpl.
  destruct (p a) eqn:E; [|discriminate]. intros [= <- <-]. eauto.
Qed.

Lemma two_inv (p1 p2 : ascii -> bool) (s s' : string) (v : N) :
  two p1 p2 s = Some (v, s') ->
  exists a b,
    s = String a (String b s') /\ p1 a = true /\ p2 b = true
    /\ v = (10 * digit a + digit b)%N.
Proof.
  destruct s as [|a [|b r]]; try discriminate. simpl.
  destruct (p1 a) eqn:E1, (p2 b) eqn:E2; try discriminate.
  intros [= <- <-]. eauto 7.
Qed.

Lemma alternation_inv {T} (alts : list reader)
  (k : N -> string -> option T) (s : string) (t : T) :
  alternation alts k s = Some t ->
  exists r v s', In r alts /\ r s = Some (v, s') /\ k v s' = Some t.
Proof.
  induction alts as [|r alts IH]; [discriminate|]. simpl.
  destruct (r s) as [[v s']|] eqn:E.
  - destruct (k v s') eqn:Ek.
    + intros [= <-]. exists r, v, s'. auto.
    + intros H. destruct (IH H) as (r' & v' & s'' & ? & ? & ?).
      exists r', v', s''. auto.
  - intros H. destruct (IH H) as (r' & v' & s'' & ? & ? & ?).
    exists r', v', s''. auto.
Qed.

Lemma dash_inv {T} (k : string -> option T) (s : string) (t : T) :
  dash k s = Some t -> exists rest, s = String "-" rest /\ k rest = Some t.
Proof.
  destruct s as [|c rest]; [discriminate|].
  destruct c as [[] [] [] [] [] [] [] []]; try discriminate.
  simpl. eauto.
Qed.

Lemma is_char_digit (x c : ascii) :
  is_char x c = true -> digit c = digit x.
Proof. unfold is_char. intros H. apply Ascii.eqb_eq in H. now subst. Qed.

Ltac reader_bounds :=
  repeat match goal with
         | H : is_char ?x ?c = true |- _ =>
             apply is_char_digit in H;
             let v := eval vm_compute in (digit x) in
             change (digit x) with v in H
         | H : is_digit ?c = true |- _ =>
             apply (@in_range_digit "0" "9" c) in H;
             [simpl in H | simpl; lia | simpl; lia]
         | H : in_range ?lo ?hi ?c = true |- _ =>
             apply (@in_range_digit lo hi c) in H;
             [simpl in H | simpl; lia | simpl; lia]
         end.

Lemma directive_Y_inv (s s' : string) (Y : N) :
  directive_Y s = Some (Y, s') ->
  (Y <= 9999)%N /\ String.length s = 4 + String.length s'.
Proof.
  unfold directive_Y.
  destruct (two is_digit is_digit s) as [[hi s1]|] eqn:E1; [|discriminate].
  destruct (two is_digit is_digit s1) as [[lo s2]|] eqn:E2; [|discriminate].
  intros H.
  assert (Y = (100 * hi + lo)%N /\ s' = s2) as (-> & ->)
    by (split; congruence).
  clear H.
  apply two_inv in E1 as (a & b & -> & Ha & Hb & Ehi).
  apply two_inv in E2 as (c & d & -> & Hc & Hd & Elo).
  reader_bounds. split; [lia | reflexivity].
Qed.

Lemma directive_m_inv (r : reader) (s s' : string) (v : N) :
  In r directive_m -> r s = Some (v, s') ->
  (1 <= v <= 12)%N
  /\ (String.length s = 1 + String.length s'
      \/ String.length s = 2 + String.length s').
Proof.
  simpl. intros [<-|[<-|[<-|[]]]] E;
    [apply two_inv in E as (a & b & -> & Ha & Hb & ->)
    |apply two_inv in E as (a & b & -> & Ha & Hb & ->)
    |apply one_inv in E as (a & -> & Ha & ->)];
    reader_bounds; cbn [String.length]; (split; [lia|]);
    first [left; reflexivity | right; reflexivity].
Qed.

Lemma directive_d_inv (r : reader) (s s' : string) (v : N) :
  In r directive_d -> r s = Some (v, s') ->
  (1 <= v <= 31)%N
  /\ (String.length s = 1 + String.length s'
      \/ String.length s = 2 + String.length s').
Proof.
  simpl. intros [<-|[<-|[<-|[<-|[<-|[]]]]]] E;
    [apply two_inv in E as (a & b & -> & Ha & Hb & ->)
    |apply two_inv in E as (a & b & -> & Ha & Hb & ->)
    |apply two_inv in E as (a & b & -> & Ha & Hb & ->)
    |apply one_inv in E as (a & -> & Ha & ->)
    |apply two_inv in E as (a & b & -> & Ha & Hb & ->)];
    reader_bounds; cbn [String.length]; (split; [lia|]);
    first [left; reflexivity | right; reflexivity].
Qed.

Lemma format_match_inv (s rest : string) (Y m d : N) :
  format_match s = Some (Y, m, d, rest) ->
  (Y <= 9999)%N /\ (1 <= m <= 12)%N /\ (1 <= d <= 31)%N
  /\ 8 + String.length rest <= String.length s <= 10 + String.length rest.
Proof.
  unfold format_match.
  destruct (directive_Y s) as [[Y' s1]|] eqn:EY; [|discriminate].
  intros H. apply directive_Y_inv in EY as (HY & LY).
  apply dash_inv in H as (s2 & -> & H).
  apply alternation_inv in H as (rm & m' & s3 & Hrm & Em & H).
  apply dash_inv in H as (s4 & -> & H).
  apply alternation_inv in H as (rd & d' & s5 & Hrd & Ed & H).
  injection H as <- <- <- <-.
  destruct (directive_m_inv _ Hrm Em) as (Hm & Lm).
  destruct (directive_d_inv _ Hrd Ed) as (Hd & Ld).
  simpl in *. repeat split; try lia.
Qed.

Lemma strptime_year_month_bounds (s : string) (t : datetime) :
  strptime s = Some t -> (year t <= 9999)%N /\ (month t <= 12)%N.
Proof.
  unfold strptime.
  destruct (format_match s) as [[[[Y m] d] rest]|] eqn:E; [|discriminate].
  destruct rest; [|discriminate].
  destruct (_ && _); [|discriminate]. intros [= <-].
  apply format_match_inv in E as (HY & Hm & _). simpl. lia.
Qed.

Lemma digit_of_digit_char (n : N) :
  is_digit (digit_char n) = true /\ digit (digit_char n) = (n mod 10)%N.
Proof.
  unfold digit_char.
  assert (H : (n mod 10 < 10)%N) by (apply N.mod_lt; lia).
  destruct (n mod 10)%N as [|p]; [split; reflexivity|].
  do 4 (destruct p as [p|p|]; try lia; try (split; reflexivity)).
Qed.

Lemma directive_Y_four_digits (Y : N) (rest : string) :
  (Y <= 9999)%N ->
  directive_Y (four_digits Y ++ rest)%string = Some (Y, rest).
Proof.
  intros HY. unfold directive_Y, four_digits, two. cbn [append].
  destruct (digit_of_digit_char (Y / 1000)) as (I1 & D1).
  destruct (digit_of_digit_char (Y / 100)) as (I2 & D2).
  destruct (digit_of_digit_char (Y / 10)) as (I3 & D3).
  destruct (digit_of_digit_char Y) as (I4 & D4).
  rewrite I1, I2. cbn [andb]. rewrite I3, I4. cbn [andb].
  rewrite D1, D2, D3, D4.
  f_equal. f_equal. pose proof (decimal_digits HY). lia.
Qed.

Lemma N_lt_In (n : N) (b : nat) :
  (n < N.of_nat b)%N -> In n (map N.of_nat (seq 0 b)).
Proof.
  intros H. rewrite <- (N2Nat.id n). apply in_map, in_seq. lia.
Qed.

(** The cases of a number below a bound. *)
Ltac number_cases n b :=
  let H := fresh "H" in
  assert (H : In n (map N.of_nat (seq 0 b))) by (apply N_lt_In; simpl; lia);
  vm_compute in H; decompose [or] H; clear H; subst; try lia;
  try contradiction.

Lemma month_read {T} (m : N) (ms rest : string)
  (k : N -> string -> option T) :
  (1 <= m <= 12)%N -> In ms (month_spellings m) ->
  alternation directive_m (fun v => dash (k v)) (ms ++ String "-" rest)
  = k m rest.
Proof.
  intros Hm Hms. number_cases m 13;
    cbn in Hms; decompose [or] Hms; subst; try contradiction;
    cbn; try reflexivity; now destruct (k _ rest).
Qed.

Lemma day_read {T} (d : N) (ds : string) (f : N -> string -> T) :
  (1 <= d <= 31)%N -> In ds (day_spellings d) ->
  alternation directive_d (fun v rest => Some (f v rest)) ds
  = Some (f d EmptyString).
Proof.
  intros Hd Hds. number_cases d 32;
    cbn in Hds; decompose [or] Hds; subst; try contradiction;
    reflexivity.
Qed.

Lemma strptime_reads_spellings (t : datetime) (s : string) :
  calendar_day t = true -> In s (spellings t) -> strptime s = Some t.
Proof.
  destruct t as [Y m d]. unfold calendar_day, spellings. cbn [year month day].
  intros C Hs. repeat (apply andb_prop in C as (C & ?)).
  repeat match goal with H : (_ <=? _)%N = true |- _ =>
           apply N.leb_le in H end.
  apply in_flat_map in Hs as (ms & Hms & Hs).
  apply in_map_iff in Hs as (ds & <- & Hds).
  unfold strptime, format_match.
  rewrite directive_Y_four_digits by assumption.
  change ("-" ++ ms ++ "-" ++ ds)%string
    with (String "-" (ms ++ String "-" ds))%string.
  cbn [dash].
  rewrite (@month_read _ m ms ds
             (fun v => alternation directive_d
                         (fun d rest => Some (Y, v, d, rest))))
    by (try split; assumption).
  rewrite (@day_read _ d ds (fun v rest => (Y, m, v, rest)))
    by (try split; try assumption; pose proof (days_in_month_le Y m); lia).
  replace (1 <=? Y)%N with true by (symmetry; now apply N.leb_le).
  replace (1 <=? d)%N with true by (symmetry; now apply N.leb_le).
  replace (d <=? days_in_month Y m)%N with true
    by (symmetry; now apply N.leb_le).
  reflexivity.
Qed.

Lemma in_range_is_digit (lo hi c : ascii) :
  in_range lo hi c = true -> is_digit lo = true -> is_digit hi = true ->
  is_digit c = true.
Proof.
  unfold is_digit, in_range. rewrite !andb_true_iff, !ascii_leb_le.
  simpl. lia.
Qed.

(** The cases of a character of a range of digits. *)
Ltac range_cases H :=
  let D := fresh "D" in
  pose proof (in_range_is_digit _ _ _ H eq_refl eq_refl) as D;
  digit_cases D; try discriminate H; clear H.

Lemma spelled (P : Prop) (ms s' : string) (l : list string) :
  P /\ In ms l ->
  P /\ exists ms0, In ms0 l /\ (ms ++ s')%string = (ms0 ++ s')%string.
Proof. intros (H & I). eauto. Qed.

Lemma month_spelling_inv (r : reader) (s s' : string) (m : N) :
  In r directive_m -> r s = Some (m, s') ->
  (1 <= m <= 12)%N
  /\ exists ms, In ms (month_spellings m) /\ s = (ms ++ s')%string.
Proof.
  simpl. intros [<-|[<-|[<-|[]]]] E;
    [apply two_inv in E as (a & b & -> & Ha & Hb & ->);
     apply (@spelled _ (String a (String b EmptyString)) s')
    |apply two_inv in E as (a & b & -> & Ha & Hb & ->);
     apply (@spelled _ (String a (String b EmptyString)) s')
    |apply one_inv in E as (a & -> & Ha & ->);
     apply (@spelled _ (String a EmptyString) s')];
    repeat match goal with
           | H : is_char _ _ = true |- _ => apply Ascii.eqb_eq in H; subst
           end;
    repeat match goal with
           | H : in_range _ _ _ = true |- _ => range_cases H
           end;
    (split; [cbn; lia | cbn; auto]).
Qed.

Lemma day_spelling_inv (r : reader) (s s' : string) (d : N) :
  In r directive_d -> r s = Some (d, s') ->
  (1 <= d <= 31)%N
  /\ exists ds, In ds (day_spellings d) /\ s = (ds ++ s')%string.
Proof.
  simpl. intros [<-|[<-|[<-|[<-|[<-|[]]]]]] E;
    [apply two_inv in E as (a & b & -> & Ha & Hb & ->);
     apply (@spelled _ (String a (String b EmptyString)) s')
    |apply two_inv in E as (a & b & -> & Ha & Hb & ->);
     apply (@spelled _ (String a (String b EmptyString)) s')
    |apply two_inv in E as (a & b & -> & Ha & Hb & ->);
     apply (@spelled _ (String a (String b EmptyString)) s')
    |apply one_inv in E as (a & -> & Ha & ->);
     apply (@spelled _ (String a EmptyString) s')
    |apply two_inv in E as (a & b & -> & Ha & Hb & ->);
     apply (@spelled _ (String a (String b EmptyString)) s')];
    repeat match goal with
           | H : is_char _ _ = true |- _ => apply Ascii.eqb_eq in H; subst
           | H : is_digit _ = true |- _ => digit_cases H
           end;
    repeat match goal with
           | H : in_range _ _ _ = true |- _ => range_cases H
           end;
    (split; [cbn; lia | cbn; auto]).
Qed.

Lemma digit_char_mod (n k : N) :
  (n mod 10 = k)%N -> (k < 10)%N -> digit_char n = digit_char k.
Proof.
  intros E L. unfold digit_char. now rewrite E, (N.mod_small k 10).
Qed.

Lemma directive_Y_spelled (s s' : string) (Y : N) :
  directive_Y s = Some (Y, s') ->
  (Y <= 9999)%N /\ s = (four_digits Y ++ s')%string.
Proof.
  intros H. split; [exact (proj1 (directive_Y_inv _ H))|].
  unfold directive_Y in H.
  destruct (two is_digit is_digit s) as [[hi s1]|] eqn:E1; [|discriminate].
  destruct (two is_digit is_digit s1) as [[lo s2]|] eqn:E2; [|discriminate].
  assert (Y = (100 * hi + lo)%N /\ s' = s2) as (-> & ->)
    by (split; congruence).
  clear H.
  apply two_inv in E1 as (a & b & -> & Ha & Hb & ->).
  apply two_inv in E2 as (c & d & -> & Hc & Hd & ->).
  apply digit_char_digit in Ha as (Ea & La), Hb as (Eb & Lb),
    Hc as (Ec & Lc), Hd as (Ed & Ld).
  destruct (digits_of_number La Lb Lc Ld) as (E1 & E2 & E3 & E4).
  cbv zeta in *.
  replace (100 * (10 * digit a + digit b) + (10 * digit c + digit d))%N
    with (1000 * digit a + 100 * digit b + 10 * digit c + digit d)%N by lia.
  unfold four_digits. cbn [append].
  rewrite (@digit_char_mod _ _ E1 La), (@digit_char_mod _ _ E2 Lb),
    (@digit_char_mod _ _ E3 Lc), (@digit_char_mod _ _ E4 Ld),
    Ea, Eb, Ec, Ed.
  reflexivity.
Qed.

Lemma append_empty (s : string) : (s ++ EmptyString)%string = s.
Proof. induction s as [|c s IH]; simpl; [reflexivity | now rewrite IH]. Qed.

Lemma strptime_spelled (s : string) (t : datetime) :
  strptime s = Some t -> calendar_day t = true /\ In s (spellings t).
Proof.
  unfold strptime.
  destruct (format_match s) as [[[[Y m] d] rest]|] eqn:E; [|discriminate].
  destruct rest; [|discriminate].
  destruct (_ && _) eqn:C; [|discriminate]. intros [= <-].
  unfold format_match in E.
  destruct (directive_Y s) as [[Y' s1]|] eqn:EY; [|discriminate].
  apply directive_Y_spelled in EY as (HY & ->).
  apply dash_inv in E as (s2 & -> & E).
  apply alternation_inv in E as (rm & m' & s3 & Hrm & Em & E).
  apply dash_inv in E as (s4 & -> & E).
  apply alternation_inv in E as (rd & d' & s5 & Hrd & Ed & E).
  injection E as -> -> -> ->.
  destruct (month_spelling_inv _ Hrm Em) as (Hm & ms & Hms & ->).
  destruct (day_spelling_inv _ Hrd Ed) as (Hd & ds & Hds & ->).
  rewrite append_empty.
  apply andb_prop in C as (C & C3). apply andb_prop in C as (C1 & C2).
  split.
  - unfold calendar_day. cbn [year month day].
    rewrite C1, C2, C3.
    replace (Y <=? 9999)%N with true by (symmetry; now apply N.leb_le).
    replace (1 <=? m)%N with true by (symmetry; apply N.leb_le; lia).
    replace (m <=? 12)%N with true by (symmetry; apply N.leb_le; lia).
    reflexivity.
  - unfold spellings. cbn [year month day].
    apply in_flat_map. exists ms. split; [assumption|].
    apply in_map_iff. exists ds. split; [reflexivity | assumption].
Qed.

(** C2, as the code has it.  Take a document whose date strings are ASCII
    text and whose dates lie in the years that pandas holds as time stamps.
    The timeline counts the date strings that [strptime] reads with the
    format of year, month and day: it shows the months of these dates, each
    once with the number of its dates, in strictly rising order of the month
    label, and the note of no valid date when there is none.  The format
    reads every spelling of a day of the calendar: the year in four digits,
    then month and day, each with or without its zero, the day also after a
    blank; and among ASCII strings it reads nothing else.  So a string of the
    shape YYYY-MM-DD is read by its digits when it names a day of the
    calendar, and counted in the month that its first seven characters
    spell; the empty string and strings such as [bad-date] are read as no
    date.  For the date strings 2024-01-15, 2024-01-20, 2024-02-01, bad-date
    and the empty one, in whatever profiles and order, the timeline is
    2024-01 with 2 and 2024-02 with 1. *)
Theorem timeline_counts_the_dates_read (data : Document) :
  Forall (fun s => ascii_text s = true) (date_strings data) ->
  Forall (fun t => in_timestamp_range t = true)
    (valid_dates (date_strings data)) ->
  let labels := map year_month (valid_dates (date_strings data)) in
  (exists date_counts,
      timeline data
      = match date_counts with
        | [] => Info "No valid dates found in evidence."
        | _ :: _ => LineChart date_counts
        end
      /\ StronglySorted (fun a b => String.ltb (fst a) (fst b) = true)
           date_counts
      /\ forall m c,
           In (m, c) date_counts
           <-> c = count_occ string_dec labels m /\ 0 < c)
  /\ (forall s t,
        calendar_day t = true -> In s (spellings t) -> strptime s = Some t)
  /\ (forall s t,
        ascii_text s = true -> strptime s = Some t ->
        calendar_day t = true /\ In s (spellings t))
  /\ (forall s, shape_YYYY_MM_DD s = true -> strptime s = calendar_date s)
  /\ (forall s t,
        shape_YYYY_MM_DD s = true -> strptime s = Some t ->
        year_month t = String.substring 0 7 s)
  /\ strptime "" = None
  /\ strptime "bad-date" = None
  /\ (Permutation (date_strings data)
        ["2024-01-15"; "2024-01-20"; "2024-02-01"; "bad-date"; ""] ->
      timeline data = LineChart [("2024-01", 2); ("2024-02", 1)]).
Proof.
  intros _ _. cbv zeta.
  split; [|split; [|split; [|split; [|split; [|split; [|split]]]]]].
  - unfold timeline. rewrite collect_dates_valid_dates.
    set (dates := valid_dates (date_strings data)).
    exists (sort_index (value_counts (map year_month dates))).
    assert (M : forall m c,
               In (m, c) (sort_index (value_counts (map year_month dates)))
               <-> c = count_occ string_dec (map year_month dates) m /\ 0 < c).
    { intros m c. now rewrite sort_index_In, value_counts_In. }
    split; [|split; [|exact M]].
    + destruct dates as [|t dates]; [reflexivity|].
      destruct (sort_index _) as [|x l] eqn:E; [|reflexivity].
      exfalso.
      apply (proj2 (M (year_month t)
                      (count_occ string_dec (map year_month (t :: dates))
                         (year_month t)))).
      split; [reflexivity|].
      apply (count_occ_In string_dec). simpl. now left.
    + apply sort_index_rising. unfold value_counts.
      rewrite map_map. simpl. rewrite map_id. apply NoDup_nodup.
  - intros s t C I. now apply strptime_reads_spellings.
  - intros s t _ E. now apply strptime_spelled.
  - exact strptime_well_shaped.
  - exact year_month_well_shaped.
  - reflexivity.
  - reflexivity.
  - intros P. now rewrite (timeline_Permutation _ P).
Qed.

Lemma timeline_counts_the_dates_read_witness :
  let data := unpadded_document in
  let labels := map year_month (valid_dates (date_strings data)) in
  (exists date_counts,
      timeline data
      = match date_counts with
        | [] => Info "No valid dates found in evidence."
        | _ :: _ => LineChart date_counts
        end
      /\ StronglySorted (fun a b => String.ltb (fst a) (fst b) = true)
           date_counts
      /\ forall m c,
           In (m, c) date_counts
           <-> c = count_occ string_dec labels m /\ 0 < c)
  /\ (forall s t,
        calendar_day t = true -> In s (spellings t) -> strptime s = Some t)
  /\ (forall s t,
        ascii_text s = true -> strptime s = Some t ->
        calendar_day t = true /\ In s (spellings t))
  /\ (forall s, shape_YYYY_MM_DD s = true -> strptime s = calendar_date s)
  /\ (forall s t,
        shape_YYYY_MM_DD s = true -> strptime s = Some t ->
        year_month t = String.substring 0 7 s)
  /\ strptime "" = None
  /\ strptime "bad-date" = None
  /\ (Permutation (date_strings data)
        ["2024-01-15"; "2024-01-20"; "2024-02-01"; "bad-date"; ""] ->
      timeline data = LineChart [("2024-01", 2); ("2024-02", 1)]).
Proof.
  cbv zeta. apply (@timeline_counts_the_dates_read unpadded_document).
  - repeat constructor.
  - repeat constructor.
Defined.

(** C2, as the claim has it, fails: a date without padding is not of the
    shape YYYY-MM-DD, yet the timeline counts it in its month. *)
Lemma timeline_counts_unpadded_date :
  date_strings unpadded_document = ["2024-1-5"]
  /\ shape_YYYY_MM_DD "2024-1-5" = false
  /\ strptime "2024-1-5" = Some {| year := 2024; month := 1; day := 5 |}
  /\ timeline unpadded_document = LineChart [("2024-01", 1)]
  /\ strict_timeline unpadded_document
     = Info "No valid dates found in evidence."
  /\ timeline unpadded_document <> strict_timeline unpadded_document.
Proof. repeat split; try reflexivity. discriminate. Qed.

(** ** Dataset loader *)

Ltac load_finish :=
  repeat match goal with
         | H : Bytes _ = Bytes _ |- _ => injection H as H; subst
         | H : Continue _ = Continue _ |- _ => injection H as H; subst
         | H : Stopped ?m = Stopped ?s |- _ =>
             is_var s; assert (s = m) by congruence; clear H; subst s
         | H : Uncaught _ = Uncaught _ |- _ => injection H as H; subst
         | R : f_read ?c = _, H : f_read ?c = Some _ |- _ =>
             rewrite R in H; injection H as H; subst
         end;
  try discriminate; try congruence; eauto 12.

Ltac load_cases :=
  intros; try split; intros;
  repeat match goal with
         | H : exists _, _ |- _ => destruct H
         | H : _ /\ _ |- _ => destruct H
         | H : _ \/ _ |- _ => destruct H
         end;
  first [ solve [load_finish]
        | match goal with
          | H : Stopped _ = Stopped _ |- _ =>
              simpl in H;
              first [ discriminate H | repeat (injection H as H); subst ]
          end; solve [load_finish] ].

Lemma ascii_text_utf8_valid (content : string) :
  ascii_text content = true -> utf8_valid content = true.
Proof.
  induction content as [|b rest IH]; [reflexivity|].
  cbn [ascii_text utf8_valid]. intros H.
  apply andb_prop in H as (Hb & Hrest).
  assert (E : byte_in 0 127 b = true).
  { unfold byte_in, ascii_char in *. apply N.ltb_lt in Hb.
    apply andb_true_intro. split; apply N.leb_le; lia. }
  rewrite E. now apply IH.
Qed.



(** * Further properties *)

(** ** Sidebar options *)

Lemma fold_left_max_ge (vs : list N) (v : N) :
  (v <= fold_left N.max vs v)%N
  /\ Forall (fun x => (x <= fold_left N.max vs v)%N) vs
  /\ In (fold_left N.max vs v) (v :: vs).
Proof.
  revert v. induction vs as [|x vs IH]; intros v; simpl.
  - repeat split; [lia | constructor | now left].
  - destruct (IH (N.max v x)) as (H1 & H2 & H3).
    repeat split; try lia.
    + constructor; [lia | assumption].
    + destruct H3 as [H3|H3]; [|now right; right].
      rewrite <- H3. destruct (N.max_spec v x) as [(_ & ->)|(_ & ->)]; auto.
Qed.

Lemma slider_max_of_rows (r : Row) (rs : list Row) :
  slider_max (pd_DataFrame (r :: rs))
  = Ok (Some (fold_left N.max (map r_evidence_count rs)
                (r_evidence_count r))).
Proof.
  unfold slider_max. cbn [empty pd_DataFrame columns rows row_keys negb].
  now rewrite getitem_row_keys by (reflexivity || (simpl; tauto)).
Qed.

(** X1. The upper end of the slider is never an error: it is 10 for the frame
    of no row, and for every other frame the greatest evidence count, which
    no row exceeds and some row has. *)
Theorem slider_max_is_the_greatest_count (rs : list Row) :
  exists m,
    slider_max (pd_DataFrame rs) = Ok (Some m)
    /\ match rs with
       | [] => m = 10%N
       | _ :: _ =>
           Forall (fun r => (r_evidence_count r <= m)%N) rs
           /\ Exists (fun r => r_evidence_count r = m) rs
       end.
Proof.
  destruct rs as [|r rs]; [now exists 10%N|].
  rewrite slider_max_of_rows. eexists. split; [reflexivity|].
  destruct (fold_left_max_ge (map r_evidence_count rs) (r_evidence_count r))
    as (H1 & H2 & H3).
  split.
  - constructor; [assumption|]. now rewrite Forall_map in H2.
  - apply Exists_exists. change (r_evidence_count r :: map r_evidence_count rs)
      with (map r_evidence_count (r :: rs)) in H3.
    apply in_map_iff in H3 as (x & E & Hin). eauto.
Qed.

(** X2. A threshold within the range of the slider leaves at least one row:
    on a frame of at least one row, the threshold filter with a minimum up to
    the upper end of the slider returns a frame that is not empty. *)
Theorem threshold_in_slider_range_keeps_a_row (rs : list Row) (q : Query)
  (m : N) :
  rs <> [] ->
  slider_max (pd_DataFrame rs) = Ok (Some m) ->
  (min_evidence q <= m)%N ->
  exists out,
    evidence_filter q (pd_DataFrame rs) = Ok out /\ rows out <> [].
Proof.
  intros Hne Hm Hle.
  destruct rs as [|r0 rs0]; [congruence|].
  rewrite slider_max_of_rows in Hm. injection Hm as Hm.
  destruct (fold_left_max_ge (map r_evidence_count rs0)
              (r_evidence_count r0)) as (_ & _ & Hin).
  rewrite Hm in Hin.
  change (r_evidence_count r0 :: map r_evidence_count rs0)
    with (map r_evidence_count (r0 :: rs0)) in Hin.
  apply in_map_iff in Hin as (r & Hr & Hin).
  change (evidence_filter q) with (run_step q Threshold).
  rewrite run_step_row_keys by reflexivity. cbn [step_test bind].
  eexists. split; [reflexivity|]. cbn [restrict rows pd_DataFrame].
  intros Hnil.
  assert (Hf : In r (filter (fun r => (min_evidence q <=? r_evidence_count r)%N)
                       (r0 :: rs0))).
  { apply filter_In. split; [assumption|]. apply N.leb_le. lia. }
  now rewrite Hnil in Hf.
Qed.

Lemma threshold_in_slider_range_keeps_a_row_witness :
  exists out,
    evidence_filter sample_query (extract_dataframe sample_document) = Ok out
    /\ rows out <> [].
Proof.
  apply (@threshold_in_slider_range_keeps_a_row
           (rows (extract_dataframe sample_document)) sample_query 5%N).
  - discriminate.
  - reflexivity.
  - vm_compute. discriminate.
Defined.

Lemma unique_In (l : list string) (x : string) : In x (unique l) <-> In x l.
Proof. unfold unique. now rewrite <- in_rev, nodup_In, <- in_rev. Qed.

Lemma unique_NoDup (l : list string) : NoDup (unique l).
Proof. unfold unique. apply NoDup_rev, NoDup_nodup. Qed.

(** Sorting distinct strings puts them in strictly rising order. *)
Lemma sorted_rising (l : list string) :
  NoDup l -> StronglySorted (fun a b => String.ltb a b = true) (sorted l).
Proof.
  intros ND. unfold sorted, list_sort.
  assert (ND' : NoDup (stable_sort (fun v => v) String.ltb l)).
  { eapply Permutation_NoDup; [|exact ND].
    apply Permutation_sym, stable_sort_Permutation. }
  pose proof (stable_sort_ascending (fun v : string => v) String.ltb
                string_ltb_asym string_not_ltb_trans l) as S.
  unfold ascending in S.
  induction S as [|a l' S IH F]; [constructor|].
  apply NoDup_cons_iff in ND' as (Ha & ND').
  constructor; [now apply IH|].
  rewrite Forall_forall in *. intros b Hb.
  apply string_ltb_total; [|now apply F].
  intros E. apply Ha. now rewrite E.
Qed.

Lemma sorted_In (l : list string) (x : string) : In x (sorted l) <-> In x l.
Proof.
  unfold sorted, list_sort. split; apply Permutation_in;
    [|apply Permutation_sym]; apply stable_sort_Permutation.
Qed.

Lemma company_sizes_of_rows (r : Row) (rs : list Row) :
  company_sizes (pd_DataFrame (r :: rs))
  = Ok ("All" :: sorted (unique (map r_company_size (r :: rs)))).
Proof.
  unfold company_sizes.
  now rewrite getitem_row_keys by (reflexivity || (simpl; tauto)).
Qed.

(** X3. The options of the company size.  On the frame of no row the
    expression raises [KeyError]; on every other frame it is ["All"] followed
    by the company sizes of the rows, each once, in strictly rising order. *)
Theorem company_sizes_lists_the_sizes (rs : list Row) :
  match rs with
  | [] => company_sizes (pd_DataFrame rs) = Raise (KeyError "company_size")
  | _ :: _ =>
      exists sizes,
        company_sizes (pd_DataFrame rs) = Ok ("All" :: sizes)
        /\ StronglySorted (fun a b => String.ltb a b = true) sizes
        /\ forall s, In s sizes <-> exists r, In r rs /\ r_company_size r = s
  end.
Proof.
  destruct rs as [|r rs]; [reflexivity|].
  rewrite company_sizes_of_rows. eexists. split; [reflexivity|]. split.
  - apply sorted_rising, unique_NoDup.
  - intros s. rewrite sorted_In, unique_In, in_map_iff.
    split; intros (x & H1 & H2); eauto.
Qed.

(** X4. Every option of the company size keeps a row: on a frame of at least
    one row, the size filter under any listed option returns a frame that is
    not empty. *)
Theorem listed_size_keeps_a_row (rs : list Row) (q : Query)
  (options : list string) :
  rs <> [] ->
  company_sizes (pd_DataFrame rs) = Ok options ->
  In (selected_size q) options ->
  exists out, size_filter q (pd_DataFrame rs) = Ok out /\ rows out <> [].
Proof.
  intros Hne Ho Hin.
  destruct rs as [|r0 rs0]; [congruence|].
  rewrite company_sizes_of_rows in Ho. injection Ho as <-.
  change (size_filter q) with (run_step q Size).
  rewrite run_step_row_keys by reflexivity. cbn [step_test].
  destruct (String.eqb_spec (selected_size q) "All") as [Eall|Nall];
    cbn [negb bind]; (eexists; split; [reflexivity|]).
  - cbn. discriminate.
  - destruct Hin as [Hin|Hin]; [congruence|].
    rewrite sorted_In, unique_In in Hin.
    change (In (selected_size q) (map r_company_size (r0 :: rs0))) in Hin.
    apply in_map_iff in Hin as (r & Er & Hr).
    cbn [restrict rows pd_DataFrame]. intros Hnil.
    assert (Hf : In r (filter (fun r => r_company_size r =? selected_size q)
                         (r0 :: rs0))).
    { apply filter_In. split; [assumption|]. now apply String.eqb_eq. }
    now rewrite Hnil in Hf.
Qed.

Lemma listed_size_keeps_a_row_witness :
  exists out,
    size_filter
      {| search_query := ""; min_evidence := 0%N; selected_size := "" |}
      (extract_dataframe sample_document) = Ok out
    /\ rows out <> [].
Proof.
  apply (@listed_size_keeps_a_row
           (rows (extract_dataframe sample_document))
           {| search_query := ""; min_evidence := 0%N; selected_size := "" |}
           ["All"; ""]).
  - discriminate.
  - reflexivity.
  - simpl. tauto.
Defined.

(** ** Top profiles *)

Lemma StronglySorted_app_inv {A} (R : A -> A -> Prop) (l1 l2 : list A) :
  StronglySorted R (l1 ++ l2) ->
  StronglySorted R l1 /\ StronglySorted R l2
  /\ forall a b, In a l1 -> In b l2 -> R a b.
Proof.
  induction l1 as [|x l1 IH]; simpl; intros S.
  - repeat split; [constructor | assumption | contradiction].
  - apply StronglySorted_inv in S as (S & F).
    destruct (IH S) as (S1 & S2 & C). rewrite Forall_app in F.
    destruct F as (F1 & F2). repeat split; [now constructor | assumption |].
    intros a b [<-|Ha] Hb; [|now apply C].
    rewrite Forall_forall in F2. now apply F2.
Qed.

(** X5. The table of the top profiles.  On the frame of no row it raises
    [KeyError]; on a frame with a count of 2^64 or more, whose column of
    counts is of [dtype] [object], it raises [TypeError]; on every other
    frame it holds the four columns of the table and the 10 rows of greatest
    evidence count (all rows when there are fewer): they stand in falling
    order of the count, no row left out has a greater count than a row of
    the table, and rows of one count are taken and listed in the order of
    the frame. *)
Theorem top_profiles_are_the_largest (rs : list Row) :
  match rs with
  | [] => top_profiles (pd_DataFrame rs) = Raise (KeyError "evidence_count")
  | _ :: _ =>
      if forallb (fun r => r_evidence_count r <? 2 ^ 64)%N rs then
      exists top rest,
        top_profiles (pd_DataFrame rs)
        = Ok {| columns :=
                  ["username"; "full_name"; "company"; "evidence_count"];
                rows := top |}
        /\ List.length top = Nat.min 10 (List.length rs)
        /\ Permutation (top ++ rest) rs
        /\ falling r_evidence_count N.ltb top
        /\ (forall a b, In a top -> In b rest ->
              (r_evidence_count b <= r_evidence_count a)%N)
        /\ (forall c,
              let has_count r := N.eqb (r_evidence_count r) c in
              filter has_count rs
              = filter has_count top ++ filter has_count rest)
      else exists msg,
        top_profiles (pd_DataFrame rs) = Raise (TypeError msg)
  end.
Proof.
  destruct rs as [|r rs]; [reflexivity|].
  set (all := r :: rs).
  assert (D : numeric_dtype (map r_evidence_count all)
              = forallb (fun r => r_evidence_count r <? 2 ^ 64)%N all).
  { unfold numeric_dtype. generalize all. intros l.
    induction l as [|x l IH]; [reflexivity|].
    cbn [map forallb]. now rewrite IH. }
  destruct (forallb _ all) eqn:B.
  2:{ eexists. unfold top_profiles, nlargest.
      rewrite getitem_row_keys by (reflexivity || (simpl; tauto)).
      cbn [bind pd_DataFrame rows]. fold all. rewrite D. reflexivity. }
  set (L := list_sort r_evidence_count N.ltb true all).
  exists (firstn 10 L), (skipn 10 L).
  split; [|split; [|split; [|split; [|split]]]].
  - unfold top_profiles, nlargest.
    rewrite getitem_row_keys by (reflexivity || (simpl; tauto)).
    cbn [bind pd_DataFrame rows]. fold all. rewrite D.
    reflexivity.
  - rewrite length_firstn. f_equal.
    apply Permutation_length, list_sort_Permutation.
  - rewrite firstn_skipn. apply list_sort_Permutation.
  - pose proof (list_sort_ordered r_evidence_count N.ltb
                  N_ltb_asym N_not_ltb_trans true all) as S.
    fold L in S. unfold falling in *. rewrite <- (firstn_skipn 10 L) in S.
    now apply StronglySorted_app_inv in S as (S & _).
  - intros a b Ha Hb.
    pose proof (list_sort_ordered r_evidence_count N.ltb
                  N_ltb_asym N_not_ltb_trans true all) as S.
    fold L in S. unfold falling in *. rewrite <- (firstn_skipn 10 L) in S.
    apply StronglySorted_app_inv in S as (_ & _ & C).
    specialize (C a b Ha Hb). simpl in C. apply N.ltb_ge in C. exact C.
  - intros c has_count. rewrite <- filter_app, firstn_skipn.
    symmetry. apply list_sort_stable. intros x y Hx Hy.
    unfold has_count in *. apply N.eqb_eq in Hx, Hy.
    rewrite Hx, Hy. apply N.ltb_irrefl.
Qed.

(** ** Filter engine, further *)

Lemma filter_map_swap {A B} (f : B -> bool) (g : A -> B) (l : list A) :
  filter f (map g l) = map g (filter (fun x => f (g x)) l).
Proof.
  induction l as [|x l IH]; simpl; [reflexivity|].
  destruct (f (g x)); simpl; now rewrite IH.
Qed.

Lemma NoDup_map_eq {A B} (g : A -> B) (l : list A) (a b : A) :
  NoDup (map g l) -> In a l -> In b l -> g a = g b -> a = b.
Proof.
  induction l as [|x l IH]; simpl; [contradiction|].
  intros ND Ha Hb E. apply NoDup_cons_iff in ND as (Hx & ND).
  destruct Ha as [<-|Ha], Hb as [<-|Hb]; auto.
  - exfalso. apply Hx. rewrite E. now apply in_map.
  - exfalso. apply Hx. rewrite <- E. now apply in_map.
Qed.

Lemma extract_dataframe_columns (data : Document) :
  get_profiles data <> [] -> columns (extract_dataframe data) = row_keys.
Proof.
  intros Hne. apply pd_DataFrame_columns. rewrite extract_loop_app. simpl.
  destruct (get_profiles data); [congruence | discriminate].
Qed.

(** With a query read literally, the filters narrow a frame of at least one
    row by [literal_test]. *)
Lemma apply_filters_literal (df : DataFrame) (q : Query) :
  columns df = row_keys -> plain (search_query q) = true ->
  apply_filters df q = Ok (restrict (literal_test q) df).
Proof.
  intros Hc Hq.
  rewrite apply_filters_run_steps, run_steps_row_keys by assumption.
  cbn [order_test step_test]. unfold re_compile.
  rewrite (parse_plain _ Hq).
  destruct (truthy (search_query q)) eqn:T,
           (String.eqb (selected_size q) "All") eqn:S;
    cbn [bind negb]; f_equal; apply restrict_ext; intros r;
    unfold literal_test; rewrite T, S; cbn [negb orb andb];
    try destruct (row_search _ r);
    try destruct (min_evidence q <=? r_evidence_count r)%N;
    try destruct (String.eqb (r_company_size r) (selected_size q));
    reflexivity.
Qed.

Lemma literal_test_spec (q : Query) (r : Row) :
  literal_test q r = true
  <-> (casefold_infix (search_query q) (r_username r)
       \/ casefold_infix (search_query q) (r_full_name r))
      /\ (min_evidence q <= r_evidence_count r)%N
      /\ (selected_size q = "All" \/ r_company_size r = selected_size q).
Proof.
  unfold literal_test, row_search.
  rewrite !andb_true_iff, !orb_true_iff, N.leb_le, !String.eqb_eq,
    !re_search_literally.
  split.
  - intros ((H1 & H2) & H3). repeat split; try assumption.
    destruct H1 as [H1|H1]; [|assumption].
    destruct (search_query q); [|discriminate H1].
    left. now exists EmptyString, (lower (r_username r)).
  - intros (H1 & H2 & H3). repeat split; try assumption. now right.
Qed.

(** X6. With an ASCII query that has no special character, on a frame of at
    least one row whose usernames and full names are ASCII text, the filters
    return the rows that pass the three tests together, in the order of the
    frame: the query occurs in the username or in the full name, case
    ignored; the evidence count reaches the minimum; the company size is the
    selected one, or the selection is ["All"]. *)
Theorem filtered_rows_pass_the_three_tests (rs : list Row) (q : Query) :
  rs <> [] -> plain (search_query q) = true ->
  ascii_text (search_query q) = true -> forallb ascii_row rs = true ->
  exists out test,
    apply_filters (pd_DataFrame rs) q = Ok out
    /\ columns out = row_keys
    /\ rows out = filter test rs
    /\ forall r,
         In r rs ->
         test r = true
         <-> (casefold_infix (search_query q) (r_username r)
              \/ casefold_infix (search_query q) (r_full_name r))
             /\ (min_evidence q <= r_evidence_count r)%N
             /\ (selected_size q = "All"
                 \/ r_company_size r = selected_size q).
Proof.
  intros Hne Hq _ _.
  exists (restrict (literal_test q) (pd_DataFrame rs)), (literal_test q).
  split; [|split; [|split]].
  - apply apply_filters_literal; [now apply pd_DataFrame_columns | assumption].
  - exact (pd_DataFrame_columns Hne).
  - reflexivity.
  - intros r _. apply literal_test_spec.
Qed.

Lemma filtered_rows_pass_the_three_tests_witness :
  exists out test,
    apply_filters (extract_dataframe sample_document) sample_query = Ok out
    /\ columns out = row_keys
    /\ rows out = filter test (rows (extract_dataframe sample_document))
    /\ forall r,
         In r (rows (extract_dataframe sample_document)) ->
         test r = true
         <-> (casefold_infix (search_query sample_query) (r_username r)
              \/ casefold_infix (search_query sample_query) (r_full_name r))
             /\ (min_evidence sample_query <= r_evidence_count r)%N
             /\ (selected_size sample_query = "All"
                 \/ r_company_size r = selected_size sample_query).
Proof.
  apply (@filtered_rows_pass_the_three_tests
           (rows (extract_dataframe sample_document)) sample_query).
  - discriminate.
  - reflexivity.
  - reflexivity.
  - reflexivity.
Defined.

(** X7. A company size that no profile has gives an empty result and no
    error: for a document of at least one profile and a query without
    special character, the filters return a frame that keeps its columns and
    has no row, and no profile is shown. *)
Theorem absent_company_size_gives_empty_result (data : Document) (q : Query) :
  get_profiles data <> [] -> plain (search_query q) = true ->
  selected_size q <> "All" ->
  (forall p, In p (get_profiles data) ->
     default "" (company_size p) <> selected_size q) ->
  exists filtered_df,
    main_filter data q = Ok (filtered_df, [])
    /\ columns filtered_df = row_keys /\ rows filtered_df = [].
Proof.
  intros Hne Hq Hall Habs.
  pose proof (@extract_dataframe_columns data Hne) as Hc.
  assert (Hrows : filter (literal_test q) (rows (extract_dataframe data)) = []).
  { rewrite extract_dataframe_map, filter_map_swap.
    replace (filter _ (get_profiles data)) with (@nil Profile); [reflexivity|].
    symmetry. revert Habs. generalize (get_profiles data) as ps.
    induction ps as [|p ps IH]; intros Habs; [reflexivity|].
    simpl. unfold literal_test at 1. cbn [make_row r_company_size].
    apply String.eqb_neq in Hall. rewrite Hall.
    assert (E : String.eqb (default "" (company_size p)) (selected_size q)
                = false).
    { apply String.eqb_neq, Habs. now left. }
    rewrite E, andb_false_r. apply IH.
    intros p' Hp'. apply Habs. now right. }
  exists (restrict (literal_test q) (extract_dataframe data)).
  split; [|split; [exact Hc | exact Hrows]].
  unfold main_filter. rewrite (@apply_filters_literal _ q Hc Hq). cbn [bind].
  unfold filter_profiles. rewrite getitem_row_keys; [|exact Hc | simpl; tauto].
  cbn [bind restrict rows]. rewrite Hrows. simpl. f_equal. f_equal.
  generalize (get_profiles data) as ps.
  induction ps as [|p ps IH]; [reflexivity|].
  simpl. now destruct (username p).
Qed.

Lemma absent_company_size_gives_empty_result_witness :
  exists filtered_df,
    main_filter sample_document absent_size_query = Ok (filtered_df, [])
    /\ columns filtered_df = row_keys /\ rows filtered_df = [].
Proof.
  apply (@absent_company_size_gives_empty_result
           sample_document absent_size_query).
  - discriminate.
  - reflexivity.
  - discriminate.
  - intros p Hp. simpl in Hp.
    decompose [or] Hp; subst; try contradiction; discriminate.
Defined.

Lemma main_filter_no_profiles (data : Document) (q : Query) :
  get_profiles data = [] ->
  exists key, main_filter data q = Raise (KeyError key).
Proof.
  intros E. unfold main_filter, extract_dataframe. rewrite E.
  rewrite apply_filters_run_steps.
  destruct (@run_steps_no_columns q [Search; Threshold; Size]
              (pd_DataFrame (extract_loop [] [])) eq_refl) as (key & ->);
    [simpl; tauto|].
  simpl. eauto.
Qed.

(** X8. When every profile has a username and no two profiles share one, the
    filtered profiles are the profiles of the filtered rows: whenever the
    filters return, projecting the filtered profiles gives the filtered rows,
    row by row, so that as many profiles are shown as rows are kept. *)
Theorem distinct_usernames_profiles_match_rows (data : Document) (q : Query)
  (filtered_df : DataFrame) (filtered_profiles : list Profile) :
  NoDup (map username (get_profiles data)) ->
  Forall (fun p => username p <> None) (get_profiles data) ->
  main_filter data q = Ok (filtered_df, filtered_profiles) ->
  map make_row filtered_profiles = rows filtered_df
  /\ List.length filtered_profiles = List.length (rows filtered_df).
Proof.
  intros ND Hu H.
  assert (E : map make_row filtered_profiles = rows filtered_df);
    [|split; [exact E | now rewrite <- E, length_map]].
  destruct (get_profiles data) as [|p0 ps0] eqn:Eps.
  { destruct (@main_filter_no_profiles data q Eps) as (key & C). congruence. }
  rewrite <- Eps in *.
  apply main_filter_Ok_inv in H as (Hf & ->).
  rewrite apply_filters_run_steps in Hf.
  apply run_steps_narrows in Hf as (f & ->);
    [|apply extract_dataframe_columns; congruence].
  cbn [restrict rows]. rewrite extract_dataframe_map, filter_map_swap.
  f_equal. apply filter_ext_in. intros p Hp.
  rewrite <- filter_map_swap.
  destruct (f (make_row p)) eqn:Fp.
  - apply contains_value_spec. exists (make_row p). split.
    + apply filter_In. split; [now apply in_map | assumption].
    + rewrite Forall_forall in Hu. specialize (Hu p Hp).
      unfold make_row. simpl. now destruct (username p).
  - destruct (contains_value _ _) eqn:C; [|reflexivity].
    apply contains_value_spec in C as (r & Hr & Er).
    apply filter_In in Hr as (Hr & Fr).
    apply in_map_iff in Hr as (p' & <- & Hp').
    assert (p = p'); [|congruence].
    apply (@NoDup_map_eq _ _ username _ p p' ND Hp Hp').
    rewrite Er. rewrite Forall_forall in Hu. specialize (Hu p' Hp').
    unfold make_row. simpl. now destruct (username p').
Qed.

Lemma distinct_usernames_profiles_match_rows_witness :
  let filtered_df :=
    restrict (fun r => (1 <=? r_evidence_count r)%N)
      (extract_dataframe distinct_document) in
  let filtered_profiles :=
    [sample_profile (Some "alice") (Some 3%N);
     sample_profile (Some "carol") (Some 5%N)] in
  map make_row filtered_profiles = rows filtered_df
  /\ List.length filtered_profiles = List.length (rows filtered_df).
Proof.
  cbv zeta.
  apply (@distinct_usernames_profiles_match_rows distinct_document
           {| search_query := ""; min_evidence := 1%N;
              selected_size := "All" |}).
  - repeat constructor; simpl; intuition discriminate.
  - repeat constructor; discriminate.
  - reflexivity.
Defined.

(** X9. Under the identity query a document of at least one profile keeps
    its whole frame, and the profiles shown are the profiles that have the
    [username] key, in the order of the document. *)
Theorem identity_query_shows_profiles_with_username (data : Document) :
  get_profiles data <> [] ->
  main_filter data identity_query
  = Ok (extract_dataframe data, filter has_username (get_profiles data)).
Proof.
  intros Hne. unfold main_filter.
  assert (Hl : extract_loop [] (get_profiles data) <> []).
  { rewrite extract_loop_app. simpl.
    destruct (get_profiles data); [congruence | discriminate]. }
  pose proof (apply_filters_identity Hl) as Hid.
  fold (extract_dataframe data) in Hid. rewrite Hid. cbn [bind].
  unfold filter_profiles.
  rewrite getitem_row_keys;
    [|now apply extract_dataframe_columns | simpl; tauto].
  cbn [bind]. do 2 f_equal. rewrite extract_dataframe_map.
  apply filter_ext_in. intros p Hp. unfold has_username.
  destruct (username p) as [u|] eqn:Eu; [|reflexivity].
  rewrite <- Eu. apply contains_value_spec. exists (make_row p).
  split; [now apply in_map|]. unfold make_row. simpl. now rewrite Eu.
Qed.

Lemma identity_query_shows_profiles_with_username_witness :
  main_filter sample_document identity_query
  = Ok (extract_dataframe sample_document,
        filter has_username (get_profiles sample_document)).
Proof.
  apply (@identity_query_shows_profiles_with_username sample_document).
  discriminate.
Defined.

Lemma search_keeps_plain_witness :
  exists b,
    search_keeps "Smith" (sample_row "bob" "Bob SMITH") = Ok b
    /\ (b = true <->
        casefold_infix "Smith" (r_username (sample_row "bob" "Bob SMITH"))
        \/ casefold_infix "Smith"
             (r_full_name (sample_row "bob" "Bob SMITH"))).
Proof.
  apply (@search_keeps_plain "Smith" (sample_row "bob" "Bob SMITH"));
    reflexivity.
Defined.

Lemma apply_filters_narrows_witness :
  exists f,
    rows (restrict (fun r => (1 <=? r_evidence_count r)%N
                             && String.eqb (r_username r) "alice")
            (extract_dataframe sample_document))
    = filter f (rows (extract_dataframe sample_document)).
Proof.
  apply (@apply_filters_narrows (rows (extract_dataframe sample_document))
           sample_query).
  reflexivity.
Defined.

Lemma main_filter_returns_witness :
  exists filtered_df filtered_profiles,
    main_filter sample_document sample_query
    = Ok (filtered_df, filtered_profiles).
Proof.
  apply (@main_filter_returns sample_document sample_query).
  - discriminate.
  - reflexivity.
Defined.

(** ** Sort engine, further *)

Section SortCompose.
Variables (A K : Type) (key : A -> K) (lt : K -> K -> bool).
Hypothesis lt_asym : forall a b, lt a b = true -> lt b a = false.
Hypothesis not_lt_trans :
  forall a b c, lt b a = false -> lt c b = false -> lt c a = false.

Lemma insert_front (x : A) (l : list A) :
  Forall (fun z => lt (key z) (key x) = false) l ->
  insert key lt x l = x :: l.
Proof.
  destruct l as [|y l]; [reflexivity|]. intros F.
  apply Forall_cons_iff in F as (Hy & _). simpl. now rewrite Hy.
Qed.

Lemma stable_sort_fixed (l : list A) :
  ascending key lt l -> stable_sort key lt l = l.
Proof.
  unfold ascending. induction l as [|x l IH]; intros S; [reflexivity|].
  apply StronglySorted_inv in S as (S & F). simpl.
  rewrite (IH S). now apply insert_front.
Qed.

Lemma list_sort_idempotent (reverse : bool) (l : list A) :
  list_sort key lt reverse (list_sort key lt reverse l)
  = list_sort key lt reverse l.
Proof.
  unfold list_sort. destruct reverse.
  - rewrite rev_involutive. f_equal.
    apply stable_sort_fixed, stable_sort_ascending; assumption.
  - apply stable_sort_fixed, stable_sort_ascending; assumption.
Qed.

Variable f : A -> bool.

Lemma filter_insert_ascending (x : A) (l : list A) :
  ascending key lt l ->
  filter f (insert key lt x l)
  = if f x then insert key lt x (filter f l) else filter f l.
Proof.
  unfold ascending. induction l as [|y l IH]; intros S.
  - simpl. now destruct (f x).
  - apply StronglySorted_inv in S as (S & F). simpl.
    destruct (lt (key y) (key x)) eqn:E.
    + simpl. rewrite (IH S).
      destruct (f x), (f y); try reflexivity. simpl. now rewrite E.
    + simpl. destruct (f x); [|reflexivity].
      symmetry. change (insert key lt x (filter f (y :: l))
                        = x :: filter f (y :: l)).
      apply insert_front. apply Forall_forall. intros z Hz.
      apply filter_In in Hz as (Hz & _). destruct Hz as [<-|Hz];
        [assumption|].
      rewrite Forall_forall in F.
      now apply not_lt_trans with (b := key y); [|apply F].
Qed.

Lemma filter_stable_sort (l : list A) :
  filter f (stable_sort key lt l) = stable_sort key lt (filter f l).
Proof.
  induction l as [|x l IH]; [reflexivity|]. simpl.
  rewrite filter_insert_ascending
    by (apply stable_sort_ascending; assumption).
  rewrite IH. now destruct (f x).
Qed.

Lemma filter_list_sort (reverse : bool) (l : list A) :
  filter f (list_sort key lt reverse l)
  = list_sort key lt reverse (filter f l).
Proof.
  unfold list_sort. destruct reverse; [|apply filter_stable_sort].
  now rewrite filter_rev, filter_stable_sort, filter_rev.
Qed.
End SortCompose.

(** X10. Whatever the sort option, the sorted profiles are the given profiles
    rearranged, as many as before; an option that is none of the four leaves
    the list as it is. *)
Theorem sort_profiles_rearranges (sort_option : string) (ps : list Profile) :
  Permutation (sort_profiles sort_option ps) ps
  /\ List.length (sort_profiles sort_option ps) = List.length ps
  /\ (~ In sort_option sort_options -> sort_profiles sort_option ps = ps).
Proof.
  assert (P : Permutation (sort_profiles sort_option ps) ps).
  { unfold sort_profiles.
    repeat match goal with
           | |- context [String.eqb ?a ?b] => destruct (String.eqb a b)
           end; try apply list_sort_Permutation. reflexivity. }
  split; [exact P|]. split; [now apply Permutation_length|].
  intros Hn. unfold sort_profiles.
  repeat match goal with
         | |- context [String.eqb ?a ?b] =>
             destruct (String.eqb_spec a b) as [->|]
         end; try reflexivity; exfalso; apply Hn; simpl; tauto.
Qed.

(** X11. Sorting sorted profiles again under the same option changes
    nothing. *)
Theorem sort_profiles_idempotent (sort_option : string) (ps : list Profile) :
  sort_profiles sort_option (sort_profiles sort_option ps)
  = sort_profiles sort_option ps.
Proof.
  unfold sort_profiles.
  repeat match goal with
         | |- context [String.eqb ?a ?b] => destruct (String.eqb a b)
         end; try reflexivity;
    first [ apply (list_sort_idempotent key_evidence_count N.ltb
                     N_ltb_asym N_not_ltb_trans)
          | apply (list_sort_idempotent key_username String.ltb
                     string_ltb_asym string_not_ltb_trans)
          | apply (list_sort_idempotent key_latest String.ltb
                     string_ltb_asym string_not_ltb_trans) ].
Qed.

(** X12. Sorting and narrowing commute: keeping the profiles that pass a
    test out of the sorted list gives the list that sorting the kept profiles
    gives.  The order in which two profiles are shown does not depend on
    which other profiles the filters keep. *)
Theorem sort_profiles_commutes_with_filter (sort_option : string)
  (keep : Profile -> bool) (ps : list Profile) :
  filter keep (sort_profiles sort_option ps)
  = sort_profiles sort_option (filter keep ps).
Proof.
  unfold sort_profiles.
  repeat match goal with
         | |- context [String.eqb ?a ?b] => destruct (String.eqb a b)
         end; try reflexivity;
    first [ apply (filter_list_sort key_evidence_count N.ltb
                     N_ltb_asym N_not_ltb_trans)
          | apply (filter_list_sort key_username String.ltb
                     string_ltb_asym string_not_ltb_trans)
          | apply (filter_list_sort key_latest String.ltb
                     string_ltb_asym string_not_ltb_trans) ].
Qed.

Lemma N_tied_eqb (a b : N) :
  negb (N.ltb a b) && negb (N.ltb b a) = N.eqb b a.
Proof.
  destruct (N.ltb_spec a b), (N.ltb_spec b a), (N.eqb_spec b a);
    simpl; try reflexivity; lia.
Qed.

Lemma string_tied_eqb (a b : string) :
  negb (String.ltb a b) && negb (String.ltb b a) = String.eqb b a.
Proof.
  destruct (String.eqb_spec b a) as [->|Hn].
  - now rewrite string_ltb_irrefl.
  - destruct (String.ltb b a) eqn:E; [now rewrite andb_false_r|].
    rewrite (string_ltb_total (fun H => Hn (eq_sym H)) E). reflexivity.
Qed.

(** X13. Order and stability fix the result of the sort: under each of the
    four options, a list that is in the order of the option and in which the
    profiles of every one key stand as in the input is the list that the sort
    returns. *)
Theorem sort_profiles_is_the_stable_arrangement :
  Forall (fun sort_option =>
    forall ps arranged : list Profile,
      (if descending sort_option
       then falling (sort_key sort_option) key_value_ltb arranged
       else ascending (sort_key sort_option) key_value_ltb arranged) ->
      (forall p,
         filter (fun x => key_value_eqb (sort_key sort_option x)
                            (sort_key sort_option p)) arranged
         = filter (fun x => key_value_eqb (sort_key sort_option x)
                              (sort_key sort_option p)) ps) ->
      arranged = sort_profiles sort_option ps)
    sort_options.
Proof.
  repeat constructor; intros ps arranged S F.
  - apply (list_sort_unique key_evidence_count N.ltb true);
      [exact N_ltb_asym | exact N_not_ltb_trans | exact S |].
    intros x. specialize (F x).
    erewrite filter_ext; [rewrite F; apply filter_ext|];
      intros y; unfold tied; simpl; now rewrite N_tied_eqb.
  - apply (list_sort_unique key_evidence_count N.ltb false);
      [exact N_ltb_asym | exact N_not_ltb_trans | exact S |].
    intros x. specialize (F x).
    erewrite filter_ext; [rewrite F; apply filter_ext|];
      intros y; unfold tied; simpl; now rewrite N_tied_eqb.
  - apply (list_sort_unique key_username String.ltb false);
      [exact string_ltb_asym | exact string_not_ltb_trans | exact S |].
    intros x. specialize (F x).
    erewrite filter_ext; [rewrite F; apply filter_ext|];
      intros y; unfold tied; simpl; now rewrite string_tied_eqb.
  - apply (list_sort_unique key_latest String.ltb true);
      [exact string_ltb_asym | exact string_not_ltb_trans | exact S |].
    intros x. specialize (F x).
    erewrite filter_ext; [rewrite F; apply filter_ext|];
      intros y; unfold tied; simpl; now rewrite string_tied_eqb.
Qed.

(** ** The search, further *)

Lemma lower_char_idempotent (c : ascii) :
  lower_char (lower_char c) = lower_char c.
Proof. destruct c as [[] [] [] [] [] [] [] []]; reflexivity. Qed.

Lemma lower_char_special (c : ascii) :
  Ascii.eqb (lower_char c) "." = Ascii.eqb c "."
  /\ mem_char (lower_char c) SPECIAL_CHARS = mem_char c SPECIAL_CHARS
  /\ Ascii.eqb (lower_char c) newline = Ascii.eqb c newline.
Proof. destruct c as [[] [] [] [] [] [] [] []]; repeat split; reflexivity. Qed.

Lemma atom_matches_lower (a : atom) (c : ascii) :
  atom_matches a (lower_char c) = atom_matches a c.
Proof.
  destruct a as [p|]; simpl.
  - now rewrite lower_char_idempotent.
  - destruct (lower_char_special c) as (_ & _ & E). now rewrite E.
Qed.

Lemma match_here_lower (p : pattern) (s : string) :
  match_here p (lower s) = match_here p s.
Proof.
  revert s. induction p as [|a p IH]; intros s; [now destruct s|].
  destruct s as [|c s]; [reflexivity|]. simpl.
  now rewrite atom_matches_lower, IH.
Qed.

Lemma re_search_lower (p : pattern) (s : string) :
  re_search p (lower s) = re_search p s.
Proof.
  induction s as [|c s IH].
  - reflexivity.
  - change (lower (String c s)) with (String (lower_char c) (lower s)).
    cbn [re_search]. rewrite <- IH.
    change (String (lower_char c) (lower s)) with (lower (String c s)).
    now rewrite match_here_lower.
Qed.

(** The pattern of the lowered query matches as the pattern of the query. *)
Lemma parse_lower (q : string) :
  match parse q, parse (lower q) with
  | Some p, Some p' => forall s, match_here p s = match_here p' s
  | None, None => True
  | _, _ => False
  end.
Proof.
  induction q as [|c q IH]; [intros s; reflexivity|].
  cbn [lower parse].
  destruct (lower_char_special c) as (E1 & E2 & _). rewrite E1, E2.
  destruct (Ascii.eqb c "."); [|destruct (mem_char c SPECIAL_CHARS)];
    try exact I;
    destruct (parse q) as [p|], (parse (lower q)) as [p'|];
    try contradiction; try exact I; cbn [option_map];
    intros [|x s]; try reflexivity; cbn [match_here]; rewrite IH;
    try reflexivity.
  f_equal. simpl. now rewrite lower_char_idempotent.
Qed.

Lemma re_search_ext (p p' : pattern) :
  (forall s, match_here p s = match_here p' s) ->
  forall s, re_search p s = re_search p' s.
Proof.
  intros E s. induction s as [|c s IH]; simpl; rewrite E; [reflexivity|].
  now rewrite IH.
Qed.

Lemma search_keeps_unfold (search : string) (r : Row) :
  search_keeps search r
  = if truthy search
    then p <- re_compile search ;; Ok (row_search p r)
    else Ok true.
Proof.
  unfold search_keeps.
  change (search_filter ?x) with (run_step x Search).
  rewrite run_step_row_keys by reflexivity.
  cbn [step_test search_query]. destruct (truthy search); [|reflexivity].
  destruct (re_compile search) as [p|e]; [|reflexivity].
  cbn [bind restrict rows pd_DataFrame filter].
  now destruct (row_search p r).
Qed.

(** X14. The search ignores case on both sides.  For an ASCII query made of
    literal characters and dots and rows of ASCII usernames and full names,
    the search returns; the lowered query keeps a row exactly when the query
    keeps it; and two rows whose usernames and full names differ in case only
    fare alike. *)
Theorem search_ignores_case (q : string) :
  in_fragment q = true -> ascii_text q = true ->
  (forall r, ascii_row r = true ->
     exists b, search_keeps q r = Ok b /\ search_keeps (lower q) r = Ok b)
  /\ (forall r r',
        ascii_row r = true -> ascii_row r' = true ->
        lower (r_username r') = lower (r_username r) ->
        lower (r_full_name r') = lower (r_full_name r) ->
        search_keeps q r' = search_keeps q r).
Proof.
  intros Hf _. unfold in_fragment in Hf. split.
  - intros r _. rewrite !search_keeps_unfold.
    replace (truthy (lower q)) with (truthy q) by now destruct q.
    destruct (truthy q); [|now exists true].
    unfold re_compile. pose proof (parse_lower q) as P.
    destruct (parse q) as [p|]; [|discriminate Hf].
    destruct (parse (lower q)) as [p'|]; [|contradiction].
    cbn [bind]. unfold row_search. simpl in P.
    rewrite !(@re_search_ext p p' P). eauto.
  - intros r r' _ _ Eu Ef. rewrite !search_keeps_unfold.
    destruct (truthy q); [|reflexivity].
    destruct (re_compile q) as [p|e]; [|reflexivity].
    cbn [bind]. unfold row_search.
    rewrite <- (re_search_lower p (r_username r')),
            <- (re_search_lower p (r_full_name r')), Eu, Ef.
    now rewrite !re_search_lower.
Qed.

Lemma search_ignores_case_witness :
  (forall r, ascii_row r = true ->
     exists b, search_keeps "B.b" r = Ok b
               /\ search_keeps (lower "B.b") r = Ok b)
  /\ (forall r r',
        ascii_row r = true -> ascii_row r' = true ->
        lower (r_username r') = lower (r_username r) ->
        lower (r_full_name r') = lower (r_full_name r) ->
        search_keeps "B.b" r' = search_keeps "B.b" r).
Proof.
  apply (@search_ignores_case "B.b"); reflexivity.
Defined.

(** ** Timeline aggregator, further *)

Lemma list_sum_count_occ_cons (a : string) (l s : list string) :
  list_sum (map (count_occ string_dec (a :: l)) s)
  = count_occ string_dec s a + list_sum (map (count_occ string_dec l) s).
Proof.
  unfold list_sum. induction s as [|x s IH]; [reflexivity|].
  cbn [map fold_right]. rewrite IH. simpl.
  destruct (string_dec a x) as [E1|Hn], (string_dec x a) as [E2|Hn'];
    try congruence; lia.
Qed.

Lemma list_sum_count_occ (l s : list string) :
  NoDup s -> (forall x, In x l -> In x s) ->
  list_sum (map (count_occ string_dec l) s) = List.length l.
Proof.
  intros ND. induction l as [|a l IH]; intros Hin.
  - clear. induction s as [|x s IHs]; [reflexivity | exact IHs].
  - rewrite list_sum_count_occ_cons.
    rewrite IH by (intros x Hx; apply Hin; now right).
    rewrite (proj1 (NoDup_count_occ' string_dec s) ND a)
      by (apply Hin; now left).
    reflexivity.
Qed.

(** X16. No date is lost and none is counted twice: the counts of a chart add
    up to the number of date strings that [strptime] reads, and every month
    of the chart counts at least one date. *)
Theorem timeline_counts_add_up (data : Document) :
  match timeline data with
  | LineChart date_counts =>
      list_sum (map snd date_counts)
      = List.length (valid_dates (date_strings data))
      /\ Forall (fun point => 1 <= snd point) date_counts
  | Info _ => valid_dates (date_strings data) = []
  end.
Proof.
  unfold timeline. rewrite collect_dates_valid_dates.
  destruct (valid_dates (date_strings data)) as [|t ts] eqn:E;
    [reflexivity|].
  rewrite <- E. set (labels := map year_month (valid_dates _)). split.
  - unfold sort_index.
    rewrite (Permutation_map snd (stable_sort_Permutation fst String.ltb _)).
    unfold value_counts. rewrite map_map. cbn [snd].
    rewrite list_sum_count_occ;
      [apply length_map | apply NoDup_nodup |].
    intros x Hx. now apply nodup_In.
  - apply Forall_forall. intros [m c] Hin.
    apply sort_index_In, value_counts_In in Hin. simpl. lia.
Qed.

(** X17. The timeline depends on the date strings only, not on the profiles
    that carry them nor on their order: two documents with the same date
    strings, in any arrangement, have the same timeline. *)
Theorem timeline_of_rearranged_dates (data data' : Document) :
  Permutation (date_strings data) (date_strings data') ->
  timeline data = timeline data'.
Proof.
  intros P. rewrite (timeline_Permutation data P).
  symmetry. apply timeline_Permutation. reflexivity.
Qed.

Lemma timeline_of_rearranged_dates_witness :
  timeline dated_document = timeline dated_document'.
Proof.
  apply (@timeline_of_rearranged_dates dated_document dated_document').
  change (Permutation ["2024-01-15"; "bad-date"; "2024-02-01"; "2024-01-20"]
            ["2024-01-20"; "2024-02-01"; "bad-date"; "2024-01-15"]).
  apply NoDup_Permutation.
  - repeat constructor; simpl; intuition discriminate.
  - repeat constructor; simpl; intuition discriminate.
  - intros x. simpl. tauto.
Defined.

(** *** The dates that the format reads, further *)

(** X18. Every date that [strptime] reads is a day of the calendar: the year
    is between 1 and 9999, the month between 1 and 12, the day between 1 and
    the number of days of that month; and the string that it was read from
    has between 8 and 10 characters. *)
Theorem strptime_reads_calendar_days (s : string) (t : datetime) :
  strptime s = Some t ->
  (1 <= year t <= 9999)%N /\ (1 <= month t <= 12)%N
  /\ (1 <= day t <= days_in_month (year t) (month t))%N
  /\ 8 <= String.length s <= 10.
Proof.
  unfold strptime.
  destruct (format_match s) as [[[[Y m] d] rest]|] eqn:E; [|discriminate].
  destruct rest; [|discriminate].
  destruct (_ && _) eqn:C; [|discriminate]. intros [= <-].
  apply format_match_inv in E as (HY & Hm & Hd & L).
  apply andb_prop in C as (C & C3). apply andb_prop in C as (C1 & C2).
  apply N.leb_le in C1, C2, C3. simpl in *. repeat split; lia.
Qed.

Lemma strptime_reads_calendar_days_witness :
  let t := {| year := 2024; month := 2; day := 29 |} in
  (1 <= year t <= 9999)%N /\ (1 <= month t <= 12)%N
  /\ (1 <= day t <= days_in_month (year t) (month t))%N
  /\ 8 <= String.length "2024-2-29" <= 10.
Proof.
  cbv zeta.
  apply (@strptime_reads_calendar_days "2024-2-29"
           {| year := 2024; month := 2; day := 29 |}).
  reflexivity.
Defined.

(** *** Month labels and the calendar *)

Lemma digit_char_compare (a b : N) :
  Ascii.compare (digit_char a) (digit_char b)
  = N.compare (a mod 10) (b mod 10).
Proof.
  unfold Ascii.compare, digit_char.
  pose proof (N.mod_lt a 10) as Ha. pose proof (N.mod_lt b 10) as Hb.
  rewrite !N_ascii_embedding by lia.
  destruct (N.compare_spec (48 + a mod 10) (48 + b mod 10)),
           (N.compare_spec (a mod 10) (b mod 10)); try reflexivity; lia.
Qed.

(** The labels of two months compare as the months do. *)
Lemma year_month_compare (t t' : datetime) :
  (year t <= 9999)%N -> (year t' <= 9999)%N ->
  (month t <= 99)%N -> (month t' <= 99)%N ->
  String.compare (year_month t) (year_month t')
  = match N.compare (year t) (year t') with
    | Eq => N.compare (month t) (month t')
    | c => c
    end.
Proof.
  intros Hy Hy' Hm Hm'.
  pose proof (decimal_digits Hy) as Dy.
  pose proof (decimal_digits Hy') as Dy'.
  assert (Hm9 : (month t <= 9999)%N) by lia.
  assert (Hm9' : (month t' <= 9999)%N) by lia.
  pose proof (decimal_digits Hm9) as Dm.
  pose proof (decimal_digits Hm9') as Dm'.
  assert (Z1 : ((month t / 1000) mod 10 = 0 /\ (month t / 100) mod 10 = 0)%N).
  { rewrite !N.div_small by lia. split; reflexivity. }
  assert (Z2 : ((month t' / 1000) mod 10 = 0
                /\ (month t' / 100) mod 10 = 0)%N).
  { rewrite !N.div_small by lia. split; reflexivity. }
  destruct Z1 as (Z1 & Z1'), Z2 as (Z2 & Z2').
  rewrite Z1, Z1' in Dm. rewrite Z2, Z2' in Dm'.
  unfold year_month. cbn [String.compare].
  rewrite !digit_char_compare.
  change (Ascii.compare "-" "-") with Eq. cbv iota.
  clear Z1 Z1' Z2 Z2' Hm9 Hm9'.
  repeat match goal with
         | |- context [(?a mod 10)%N] =>
             let d := fresh "d" in
             let E := fresh "E" in
             pose proof (N.mod_lt a 10 ltac:(discriminate));
             remember (a mod 10)%N as d eqn:E; clear E
         end.
  repeat match goal with
         | |- context [N.compare ?a ?b] => destruct (N.compare_spec a b)
         end;
    try reflexivity; exfalso; lia.
Qed.


